(** * llm_powered_assistant: the decoder, the SQL guard and the statistics engine

    A shallow embedding of the request-handling core of the assistant:
    - [app/routers/query.py]     the SELECT-only guard and the row limit,
    - [app/routers/explain.py]   the lexical table-name extractor,
    - [app/services/llm.py]      the decoders of the model's free text,
    - [app/services/database.py] schema rendering, column statistics and
                                 data-quality metrics,
    - [app/routers/summarize.py] the table-existence gate.

    Conventions of the embedding.
    - A Python [str] is a Rocq [string].  Case mapping, whitespace and the
      regular-expression classes are the ASCII ones; a character outside
      ASCII is carried as its UTF-8 bytes and is neither a letter, a digit
      nor a space.
    - A Python [int] is a [Z].  A Python [float] that the code obtains by
      true division is the exact rational ([Q], kept reduced); [round] is
      rounding to the nearest multiple of the power of ten, ties to even.
    - The SQLite store is a list of tables whose cells are NULL, integers
      or text; each query the code sends is given its meaning on that
      store by a function named after the query.
    - An exception that the code lets escape is a [Raised] outcome. *)

From Stdlib Require Import ZArith QArith String Ascii List Bool Lia.
From Stdlib Require Import DecimalString.
Import ListNotations.

Local Set Warnings "-register-all".
Local Close Scope Q_scope.
Local Open Scope list_scope.
Local Open Scope string_scope.

(** ** Python string primitives *)

Module Py.

(** [str.isspace] on ASCII: TAB..CR, FS..US and the space. *)
Definition is_space (c : ascii) : bool :=
  let n := nat_of_ascii c in
  ((9 <=? n) && (n <=? 13) || (28 <=? n) && (n <=? 32))%nat.

Definition is_lower (c : ascii) : bool :=
  let n := nat_of_ascii c in ((97 <=? n) && (n <=? 122))%nat.

Definition is_upper (c : ascii) : bool :=
  let n := nat_of_ascii c in ((65 <=? n) && (n <=? 90))%nat.

Definition is_digit (c : ascii) : bool :=
  let n := nat_of_ascii c in ((48 <=? n) && (n <=? 57))%nat.

Definition upper_char (c : ascii) : ascii :=
  if is_lower c then ascii_of_nat (nat_of_ascii c - 32) else c.

(** [s.upper()] *)
Fixpoint upper (s : string) : string :=
  match s with
  | EmptyString => EmptyString
  | String c s' => String (upper_char c) (upper s')
  end.

(** [s.lstrip()] *)
Fixpoint lstrip (s : string) : string :=
  match s with
  | EmptyString => EmptyString
  | String c s' => if is_space c then lstrip s' else s
  end.

(** [s.rstrip(chars)] for the character class [p]. *)
Fixpoint rstrip_with (p : ascii -> bool) (s : string) : string :=
  match s with
  | EmptyString => EmptyString
  | String c s' =>
      match rstrip_with p s' with
      | EmptyString => if p c then EmptyString else String c EmptyString
      | r => String c r
      end
  end.

(** [s.strip()] *)
Definition strip (s : string) : string := rstrip_with is_space (lstrip s).

(** [s.startswith(p)] *)
Definition startswith (p s : string) : bool := String.prefix p s.

(** [sub in s] *)
Fixpoint contains (sub s : string) : bool :=
  String.prefix sub s
  || match s with
     | EmptyString => false
     | String _ s' => contains sub s'
     end.

(** Number of positions of [s] at which [sub] starts. *)
Fixpoint count_sub (sub s : string) : nat :=
  match s with
  | EmptyString => 0
  | String _ s' => (if String.prefix sub s then 1 else 0) + count_sub sub s'
  end.

(** [s.find(sub)], with Python's [-1] for no occurrence. *)
Fixpoint find_from (sub s : string) (i : Z) : Z :=
  if String.prefix sub s then i
  else match s with
       | EmptyString => (-1)%Z
       | String _ s' => find_from sub s' (i + 1)
       end.

Definition find (sub s : string) : Z := find_from sub s 0.

(** [s[i:j]] for [0 <= i]. *)
Fixpoint drop (n : nat) (s : string) : string :=
  match n, s with
  | O, _ => s
  | S n', String _ s' => drop n' s'
  | S _, EmptyString => EmptyString
  end.

Fixpoint take (n : nat) (s : string) : string :=
  match n, s with
  | S n', String c s' => String c (take n' s')
  | _, _ => EmptyString
  end.

Definition slice (s : string) (i j : Z) : string :=
  take (Z.to_nat (j - i)) (drop (Z.to_nat i) s).

(** [str(n)] for an [int]. *)
Definition str (n : Z) : string := NilZero.string_of_int (Z.to_int n).

(** [c * n] for a one-character string. *)
Fixpoint replicate (n : nat) (c : ascii) : string :=
  match n with
  | O => EmptyString
  | S n' => String c (replicate n' c)
  end.

(** [sep.join(lines)] *)
Fixpoint join (sep : string) (lines : list string) : string :=
  match lines with
  | [] => EmptyString
  | [l] => l
  | l :: rest => l ++ sep ++ join sep rest
  end.

Fixpoint all_chars (p : ascii -> bool) (s : string) : bool :=
  match s with
  | EmptyString => true
  | String c s' => p c && all_chars p s'
  end.

(** The characters of the decimal rendering of an [int]. *)
Definition digit_or_minus (c : ascii) : bool := is_digit c || Ascii.eqb c "-".

(** Last character, if any. *)
Fixpoint last_char (s : string) : option ascii :=
  match s with
  | EmptyString => None
  | String c EmptyString => Some c
  | String _ s' => last_char s'
  end.

End Py.

(** ** HTTP errors raised by the routers *)

Inductive error_code :=
| SQL_GENERATION_FAILED
| INVALID_SQL_TYPE
| QUERY_EXECUTION_FAILED
| TABLE_NOT_FOUND
| INVALID_SQL
| INTERNAL_ERROR.

(** [HTTPException(status_code, detail={error_code, ..., details})]; the
    only details payload the development inspects is the list of table
    names of TABLE_NOT_FOUND. *)
Record http_error := HttpError {
  status_code : Z;
  code : error_code;
  available_tables : list string
}.

(** ** app/routers/query.py: the guard of [query_data] *)

Definition is_semicolon (c : ascii) : bool := Ascii.eqb c ";".

(** Lines 93-107 of [query_data]: the statement is refused unless its
    upper-cased, stripped text starts with SELECT; a LIMIT is appended
    unless the upper-cased text has one. *)
Definition validate (generated_sql : string) (limit : Z) : http_error + string :=
  let sql_upper := Py.strip (Py.upper generated_sql) in
  if negb (Py.startswith "SELECT" sql_upper) then
    inl (HttpError 400 INVALID_SQL_TYPE [])
  else if negb (Py.contains "LIMIT" sql_upper) then
    inr (Py.rstrip_with is_semicolon generated_sql ++ " LIMIT " ++ Py.str limit)
  else
    inr generated_sql.

(** The spec's name for the refusal. *)
Definition NotASelectStatement : http_error := HttpError 400 INVALID_SQL_TYPE [].

(** ** Outcomes of calls that may raise *)

Inductive exn :=
| AttributeError
| IndexError
| OperationalError
| StopIteration.

Inductive outcome (A : Type) :=
| Returned (a : A)
| Raised (e : exn).

Arguments Returned {A} a.
Arguments Raised {A} e.

(** ** The regular expressions of the code

    Each pattern is written as a matcher anchored at the start of its
    argument, and [search] / [findall] move the anchor from left to right as
    [re.search] and [re.findall] do.  In all four patterns a repetition is
    followed either by a character outside the repeated class or by the end
    of the pattern, so the greedy repetition never gives characters back,
    except in the greedy object pattern, which is matched by its last brace. *)

Module Re.

Definition is_word (c : ascii) : bool :=
  Py.is_lower c || Py.is_upper c || Py.is_digit c || Ascii.eqb c "_".

(** Longest prefix in the class [p], and what follows it. *)
Fixpoint span (p : ascii -> bool) (s : string) : string * string :=
  match s with
  | EmptyString => (EmptyString, EmptyString)
  | String c s' =>
      if p c then let (a, b) := span p s' in (String c a, b)
      else (EmptyString, s)
  end.

(** The literal [lit] at the start of [s]; with [ci] letters match in either
    case (re.IGNORECASE).  The result is the matched text and the rest. *)
Fixpoint literal (ci : bool) (lit s : string) : option (string * string) :=
  match lit with
  | EmptyString => Some (EmptyString, s)
  | String l lit' =>
      match s with
      | EmptyString => None
      | String c s' =>
          if (if ci then Ascii.eqb (Py.upper_char l) (Py.upper_char c)
              else Ascii.eqb l c)
          then match literal ci lit' s' with
               | Some (m, rest) => Some (String c m, rest)
               | None => None
               end
          else None
      end
  end.

(** [re.search]: the match at the leftmost position that has one. *)
Fixpoint search {A : Type} (m : string -> option A) (s : string) : option A :=
  match m s with
  | Some r => Some r
  | None =>
      match s with
      | EmptyString => None
      | String _ s' => search m s'
      end
  end.

(** [re.findall] for a pattern with one group and no empty match: the
    matcher returns the group and the length of the whole match, and the
    scan resumes where the match ended. *)
Fixpoint findall_skip (m : string -> option (string * nat)) (s : string)
    (skip : nat) : list string :=
  match s with
  | EmptyString => []
  | String _ s' =>
      match skip with
      | S k => findall_skip m s' k
      | O =>
          match m s with
          | Some (g, len) => g :: findall_skip m s' (len - 1)
          | None => findall_skip m s' 0
          end
      end
  end.

Definition findall (m : string -> option (string * nat)) (s : string) : list string :=
  findall_skip m s 0.

Definition not_brace (c : ascii) : bool :=
  negb (Ascii.eqb c "{" || Ascii.eqb c "}").

(** [\{[^{}]*\}] *)
Definition flat_object (s : string) : option string :=
  match s with
  | String "{" r =>
      match span not_brace r with
      | (body, String "}" _) => Some ("{" ++ body ++ "}")
      | _ => None
      end
  | _ => None
  end.

(** The prefix of [s] that ends at the last occurrence of [c]. *)
Fixpoint upto_last (c : ascii) (s : string) : option string :=
  match s with
  | EmptyString => None
  | String a s' =>
      match upto_last c s' with
      | Some t => Some (String a t)
      | None => if Ascii.eqb a c then Some (String a EmptyString) else None
      end
  end.

(** [\{.*\}] with re.DOTALL *)
Definition greedy_object (s : string) : option string :=
  match s with
  | String "{" r =>
      match upto_last "}" r with
      | Some t => Some (String "{" t)
      | None => None
      end
  | _ => None
  end.

Definition not_semicolon (c : ascii) : bool := negb (Ascii.eqb c ";").

(** [(SELECT[^;]+;?)] with re.IGNORECASE | re.DOTALL; the result is group 1. *)
Definition select_statement (s : string) : option string :=
  match literal true "SELECT" s with
  | Some (kw, r) =>
      match span not_semicolon r with
      | (EmptyString, _) => None
      | (body, String ";" _) => Some (kw ++ body ++ ";")
      | (body, _) => Some (kw ++ body)
      end
  | None => None
  end.

(** [KW\s+(\w+)]: group 1 and the length of the match. *)
Definition keyword_name (kw s : string) : option (string * nat) :=
  match literal false kw s with
  | Some (k, r) =>
      match span Py.is_space r with
      | (EmptyString, _) => None
      | (ws, r1) =>
          match span is_word r1 with
          | (EmptyString, _) => None
          | (w, _) => Some (w, String.length k + String.length ws + String.length w)
          end
      end
  | None => None
  end.

(** Some suffix of [s] satisfies [p]: [p] holds at some position of [s]. *)
Fixpoint anywhere (p : string -> bool) (s : string) : bool :=
  p s
  || match s with
     | EmptyString => false
     | String _ s' => anywhere p s'
     end.

(** SELECT, in either letter case, and then a character that is not a
    semicolon. *)
Definition select_start (s : string) : bool :=
  match literal true "SELECT" s with
  | Some (_, String c _) => not_semicolon c
  | _ => false
  end.

(** Following the spec's words for the second tier, a span that runs from
    SELECT to a semicolon: SELECT in either letter case, one or more
    characters that are not a semicolon, and the semicolon. *)
Definition select_semicolon_span (s : string) : bool :=
  match literal true "SELECT" s with
  | Some (_, r) =>
      match span not_semicolon r with
      | (String _ _, String ";" _) => true
      | _ => false
      end
  | None => false
  end.

End Re.

(** ** app/routers/explain.py *)

(** [tables.add(x)] on a set kept as a duplicate-free list. *)
Fixpoint set_add (x : string) (s : list string) : list string :=
  match s with
  | [] => [x]
  | y :: s' => if String.eqb x y then s else y :: set_add x s'
  end.

Definition patterns : list string := ["FROM"; "JOIN"; "INTO"; "UPDATE"].

(** [extract_tables_from_sql]: for each keyword pattern and each of its
    matches in the upper-cased text, the name is read from the original
    text at the index [sql_upper.find(match)]. *)
Definition extract_tables_from_sql (sql : string) : list string :=
  let sql_upper := Py.upper sql in
  let sql_original := sql in
  fold_left
    (fun tables pattern =>
       let matches := Re.findall (Re.keyword_name pattern) sql_upper in
       fold_left
         (fun tables match_ =>
            let idx := Py.find match_ sql_upper in
            if negb (idx =? -1)%Z then
              set_add (Py.slice sql_original idx (idx + Z.of_nat (String.length match_))) tables
            else tables)
         matches tables)
    patterns [].

(** ** [json.loads]

    The decoder of Python's [json] package for a [str] argument, in strict
    mode: the scanner of [json/scanner.py] with [JSONObject], [JSONArray]
    and [scanstring] of [json/decoder.py]. *)

Module Json.

Inductive json :=
| JNull
| JBool (b : bool)
| JInt (n : Z)
| JFloat (lexeme : string)
| JStr (s : string)
| JArr (items : list json)
| JObj (members : list (string * json)).

(** A [dict] with string keys, in insertion order. *)
Definition dict := list (string * json).

(** [d[k] = v] *)
Fixpoint dict_set (k : string) (v : json) (d : dict) : dict :=
  match d with
  | [] => [(k, v)]
  | (k', v') :: d' =>
      if String.eqb k k' then (k, v) :: d' else (k', v') :: dict_set k v d'
  end.

(** [d.get(k)], [None] being Rocq's [None]. *)
Fixpoint dict_lookup (k : string) (d : dict) : option json :=
  match d with
  | [] => None
  | (k', v) :: d' => if String.eqb k k' then Some v else dict_lookup k d'
  end.

(** [d.get(k, default)] *)
Definition get (d : dict) (k : string) (default : json) : json :=
  match dict_lookup k d with
  | Some v => v
  | None => default
  end.

(** [d.pop(k, None)], for its effect on [d]. *)
Fixpoint pop (k : string) (d : dict) : dict :=
  match d with
  | [] => []
  | (k', v) :: d' => if String.eqb k k' then d' else (k', v) :: pop k d'
  end.

Inductive parse_result (A : Type) :=
| Parsed (a : A) (rest : string)
| Invalid
| OutOfFuel.

Arguments Parsed {A} a rest.
Arguments Invalid {A}.
Arguments OutOfFuel {A}.

(** The [WHITESPACE] of the decoder. *)
Definition is_ws (c : ascii) : bool :=
  Ascii.eqb c " " || Ascii.eqb c "009" || Ascii.eqb c "010" || Ascii.eqb c "013".

Fixpoint skip_ws (s : string) : string :=
  match s with
  | EmptyString => EmptyString
  | String c s' => if is_ws c then skip_ws s' else s
  end.

Definition hex_val (c : ascii) : option N :=
  let n := N_of_ascii c in
  if ((48 <=? n) && (n <=? 57))%N then Some (n - 48)%N
  else if ((97 <=? n) && (n <=? 102))%N then Some (n - 87)%N
  else if ((65 <=? n) && (n <=? 70))%N then Some (n - 55)%N
  else None.

Definition hex4 (a b c d : ascii) : option N :=
  match hex_val a, hex_val b, hex_val c, hex_val d with
  | Some x, Some y, Some z, Some w => Some (((x * 16 + y) * 16 + z) * 16 + w)%N
  | _, _, _, _ => None
  end.

Definition byte (n : N) : ascii := ascii_of_N n.

(** The UTF-8 bytes of the code point [cp] (a lone surrogate included). *)
Definition utf8 (cp : N) : string :=
  if (cp <? 128)%N then String (byte cp) EmptyString
  else if (cp <? 2048)%N then
    String (byte (192 + cp / 64)) (String (byte (128 + cp mod 64)) EmptyString)
  else if (cp <? 65536)%N then
    String (byte (224 + cp / 4096))
      (String (byte (128 + (cp / 64) mod 64))
         (String (byte (128 + cp mod 64)) EmptyString))
  else
    String (byte (240 + cp / 262144))
      (String (byte (128 + (cp / 4096) mod 64))
         (String (byte (128 + (cp / 64) mod 64))
            (String (byte (128 + cp mod 64)) EmptyString))).

Definition is_high_surrogate (cp : N) : bool := ((55296 <=? cp) && (cp <=? 56319))%N.
Definition is_low_surrogate (cp : N) : bool := ((56320 <=? cp) && (cp <=? 57343))%N.

(** The character of a one-letter escape. *)
Definition simple_escape (e : ascii) : option ascii :=
  if Ascii.eqb e "034" then Some "034"%char
  else if Ascii.eqb e "\" then Some "\"%char
  else if Ascii.eqb e "/" then Some "/"%char
  else if Ascii.eqb e "b" then Some "008"%char
  else if Ascii.eqb e "f" then Some "012"%char
  else if Ascii.eqb e "n" then Some "010"%char
  else if Ascii.eqb e "r" then Some "013"%char
  else if Ascii.eqb e "t" then Some "009"%char
  else None.

Definition emit (cs : string) (r : option (string * string)) : option (string * string) :=
  match r with
  | Some (v, rest) => Some (cs ++ v, rest)
  | None => None
  end.

(** [scanstring], entered after the opening quote: the decoded text and what
    follows the closing quote. *)
Fixpoint scanstring (s : string) : option (string * string) :=
  match s with
  | EmptyString => None
  | String c r =>
      if Ascii.eqb c "034" then Some (EmptyString, r)
      else if Ascii.eqb c "\" then
        match r with
        | EmptyString => None
        | String e r1 =>
            if Ascii.eqb e "u" then
              match r1 with
              | String h1 (String h2 (String h3 (String h4 r2))) =>
                  match hex4 h1 h2 h3 h4 with
                  | None => None
                  | Some uni =>
                      match r2 with
                      | String "\" (String "u" (String g1 (String g2 (String g3 (String g4 r3))))) =>
                          if is_high_surrogate uni then
                            match hex4 g1 g2 g3 g4 with
                            | None => None
                            | Some uni2 =>
                                if is_low_surrogate uni2 then
                                  emit (utf8 (65536 + ((uni - 55296) * 1024 + (uni2 - 56320)))%N)
                                       (scanstring r3)
                                else emit (utf8 uni) (scanstring r2)
                            end
                          else emit (utf8 uni) (scanstring r2)
                      | _ => emit (utf8 uni) (scanstring r2)
                      end
                  end
              | _ => None
              end
            else
              match simple_escape e with
              | Some ch => emit (String ch EmptyString) (scanstring r1)
              | None => None
              end
        end
      else if (N_of_ascii c <? 32)%N then None
      else emit (String c EmptyString) (scanstring r)
  end.

Definition digit_val (c : ascii) : Z := Z.of_N (N_of_ascii c) - 48.

Definition int_of_digits (ds : string) : Z :=
  (fix go (acc : Z) (s : string) : Z :=
     match s with
     | EmptyString => acc
     | String c s' => go (acc * 10 + digit_val c)%Z s'
     end) 0%Z ds.

(** An optional minus sign. *)
Definition minus_sign (s : string) : bool * string :=
  match s with
  | String "-" r => (true, r)
  | _ => (false, s)
  end.

(** The integer group of [NUMBER_RE], an optional minus sign and then
    either a single 0 or a non-zero digit and further digits: the sign, the
    digits and the rest. *)
Definition integer_part (s : string) : option (bool * string * string) :=
  let (neg, r) := minus_sign s in
  match r with
  | EmptyString => None
  | String c r' =>
      if Ascii.eqb c "0" then Some (neg, "0", r')
      else if Py.is_digit c then
        let (ds, r'') := Re.span Py.is_digit r' in Some (neg, String c ds, r'')
      else None
  end.

(** The optional fraction group: a dot and one or more digits. *)
Definition frac_part (s : string) : string * string :=
  match s with
  | String "." r =>
      match Re.span Py.is_digit r with
      | (EmptyString, _) => (EmptyString, s)
      | (ds, r') => (String "." ds, r')
      end
  | _ => (EmptyString, s)
  end.

(** An optional sign of either kind. *)
Definition exp_sign (s : string) : string * string :=
  match s with
  | String "-" r => ("-", r)
  | String "+" r => ("+", r)
  | _ => (EmptyString, s)
  end.

(** The optional exponent group: e or E, an optional sign, one or more
    digits. *)
Definition exp_part (s : string) : string * string :=
  match s with
  | String e r =>
      if Ascii.eqb e "e" || Ascii.eqb e "E" then
        let (sign, r1) := exp_sign r in
        match Re.span Py.is_digit r1 with
        | (EmptyString, _) => (EmptyString, s)
        | (ds, r') => (String e (sign ++ ds), r')
        end
      else (EmptyString, s)
  | EmptyString => (EmptyString, s)
  end.

(** The number branch of the scanner: an [int] when there is neither a
    fraction nor an exponent, a [float] (kept as its lexeme) otherwise. *)
Definition match_number (s : string) : option (json * string) :=
  match integer_part s with
  | None => None
  | Some (neg, ds, r) =>
      let (frac, r1) := frac_part r in
      let (exp, r2) := exp_part r1 in
      match frac, exp with
      | EmptyString, EmptyString =>
          Some (JInt (if neg then - int_of_digits ds else int_of_digits ds)%Z, r2)
      | _, _ => Some (JFloat ((if neg then "-" else EmptyString) ++ ds ++ frac ++ exp), r2)
      end
  end.

(** The branches of [_scan_once] that are neither a string, an object nor
    an array, in the order the scanner tries them. *)
Definition scan_atom (s : string) : option (json * string) :=
  match Re.literal false "null" s with
  | Some (_, r) => Some (JNull, r)
  | None =>
  match Re.literal false "true" s with
  | Some (_, r) => Some (JBool true, r)
  | None =>
  match Re.literal false "false" s with
  | Some (_, r) => Some (JBool false, r)
  | None =>
  match match_number s with
  | Some res => Some res
  | None =>
  match Re.literal false "NaN" s with
  | Some (_, r) => Some (JFloat "NaN", r)
  | None =>
  match Re.literal false "Infinity" s with
  | Some (_, r) => Some (JFloat "Infinity", r)
  | None =>
  match Re.literal false "-Infinity" s with
  | Some (_, r) => Some (JFloat "-Infinity", r)
  | None => None
  end end end end end end end.

(** [_scan_once] with [JSONObject] and [JSONArray].  [parse_members] is
    entered after the opening quote of a key, [parse_elements] where a value
    is expected. *)
Fixpoint scan_once (fuel : nat) (s : string) : parse_result json :=
  match fuel with
  | O => OutOfFuel
  | S fuel' =>
      match s with
      | EmptyString => Invalid
      | String c r =>
          if Ascii.eqb c "034" then
            match scanstring r with
            | Some (v, rest) => Parsed (JStr v) rest
            | None => Invalid
            end
          else if Ascii.eqb c "{" then
            match skip_ws r with
            | String "}" rest => Parsed (JObj []) rest
            | String "034" r1 => parse_members fuel' r1 []
            | _ => Invalid
            end
          else if Ascii.eqb c "[" then
            match skip_ws r with
            | String "]" rest => Parsed (JArr []) rest
            | r1 => parse_elements fuel' r1 []
            end
          else
            match scan_atom s with
            | Some (v, rest) => Parsed v rest
            | None => Invalid
            end
      end
  end

with parse_members (fuel : nat) (s : string) (acc : dict) : parse_result json :=
  match fuel with
  | O => OutOfFuel
  | S fuel' =>
      match scanstring s with
      | None => Invalid
      | Some (key, r) =>
          match skip_ws r with
          | String ":" r1 =>
              match scan_once fuel' (skip_ws r1) with
              | Parsed v r2 =>
                  let acc' := dict_set key v acc in
                  match skip_ws r2 with
                  | String "}" rest => Parsed (JObj acc') rest
                  | String "," r3 =>
                      match skip_ws r3 with
                      | String "034" r4 => parse_members fuel' r4 acc'
                      | _ => Invalid
                      end
                  | _ => Invalid
                  end
              | Invalid => Invalid
              | OutOfFuel => OutOfFuel
              end
          | _ => Invalid
          end
      end
  end

with parse_elements (fuel : nat) (s : string) (acc : list json) : parse_result json :=
  match fuel with
  | O => OutOfFuel
  | S fuel' =>
      match scan_once fuel' s with
      | Parsed v r =>
          match skip_ws r with
          | String "]" rest => Parsed (JArr (rev (v :: acc))) rest
          | String "," r1 => parse_elements fuel' (skip_ws r1) (v :: acc)
          | _ => Invalid
          end
      | Invalid => Invalid
      | OutOfFuel => OutOfFuel
      end
  end.

(** Fuel that the scanner never exhausts on [s]. *)
Definition fuel_for (s : string) : nat := 2 * String.length s + 2.

(** [json.loads(s)]; [None] is a [JSONDecodeError]. *)
Definition loads (s : string) : option json :=
  let s0 := skip_ws s in
  match scan_once (fuel_for s0) s0 with
  | Parsed v rest =>
      match skip_ws rest with
      | EmptyString => Some v
      | _ => None
      end
  | _ => None
  end.

End Json.

(** ** app/services/llm.py: the decoders

    Each method of [LLMService] sends a prompt and decodes the text that
    comes back.  The decoding, everything after
    [response = await self.provider.generate(...)], is a function of
    [response]. *)

Module LLMService.

Import Json.

(** The [dict] returned by [generate_sql]. *)
Record sql_result := SqlResult {
  sql : json;
  sql_explanation : json
}.

(** The [try] block of [generate_sql]: [None] when the pattern has no match
    or [json.loads] raises [JSONDecodeError], which the code catches; a
    value other than a [dict] has no [get] and the call raises. *)
Definition generate_sql_json_tier (response : string) : option (outcome sql_result) :=
  match Re.search Re.flat_object response with
  | Some text =>
      match loads text with
      | Some (JObj result) =>
          Some (Returned
                  {| sql := get result "sql" (JStr EmptyString);
                     sql_explanation :=
                       get result "explanation" (JStr "Query generated from natural language") |})
      | Some _ => Some (Raised AttributeError)
      | None => None
      end
  | None => None
  end.

(** The fallback of [generate_sql]: a SELECT statement found in the text. *)
Definition generate_sql_regex_tier (response : string) : option sql_result :=
  match Re.search Re.select_statement response with
  | Some g =>
      Some {| sql := JStr (Py.strip g);
              sql_explanation := JStr "Query generated from natural language" |}
  | None => None
  end.

Definition generate_sql (response : string) : outcome sql_result :=
  match generate_sql_json_tier response with
  | Some r => r
  | None =>
      match generate_sql_regex_tier response with
      | Some r => Returned r
      | None =>
          Returned {| sql := JStr EmptyString;
                      sql_explanation := JStr "Could not generate a valid SQL query" |}
      end
  end.

(** The [dict] returned by [explain_query]; Python's [None] is [JNull]. *)
Record explain_result := ExplainResult {
  explanation : json;
  components : json;
  tables : json;
  complexity : json;
  optimization_tips : json;
  potential_issues : json
}.

Definition explain_query_json_tier (response : string) (include_tips : bool)
    : option (outcome explain_result) :=
  match Re.search Re.greedy_object response with
  | Some text =>
      match loads text with
      | Some (JObj result0) =>
          let result := if negb include_tips then pop "optimization_tips" result0 else result0 in
          Some (Returned
                  {| explanation := get result "explanation" (JStr EmptyString);
                     components := get result "components" (JObj []);
                     tables := get result "tables" (JArr []);
                     complexity := get result "complexity" (JStr "moderate");
                     optimization_tips :=
                       if include_tips then get result "optimization_tips" JNull else JNull;
                     potential_issues := get result "potential_issues" JNull |})
      | Some _ => Some (Raised AttributeError)
      | None => None
      end
  | None => None
  end.

Definition explain_query (response : string) (include_tips : bool) : outcome explain_result :=
  match explain_query_json_tier response include_tips with
  | Some r => r
  | None =>
      Returned {| explanation := JStr response;
                  components := JObj [];
                  tables := JArr [];
                  complexity := JStr "moderate";
                  optimization_tips := JNull;
                  potential_issues := JNull |}
  end.

(** The [dict] returned by [summarize_data]. *)
Record summary_result := SummaryResult {
  summary : json;
  insights : json
}.

Definition summarize_data_json_tier (response : string) : option (outcome summary_result) :=
  match Re.search Re.greedy_object response with
  | Some text =>
      match loads text with
      | Some (JObj result) =>
          Some (Returned {| summary := get result "summary" (JStr EmptyString);
                            insights := get result "insights" (JArr []) |})
      | Some _ => Some (Raised AttributeError)
      | None => None
      end
  | None => None
  end.

Definition summarize_data (response : string) : outcome summary_result :=
  match summarize_data_json_tier response with
  | Some r => r
  | None => Returned {| summary := JStr response; insights := JArr [] |}
  end.

End LLMService.

(** A fixture text is written with apostrophes where the text has double
    quotes. *)
Definition dq (s : string) : string :=
  (fix go (s : string) : string :=
     match s with
     | EmptyString => EmptyString
     | String c s' => String (if Ascii.eqb c "'" then "034"%char else c) (go s')
     end) s.

(** ** app/services/database.py *)

Module DatabaseService.

(** *** The store *)

(** A cell of a row. *)
Inductive value :=
| VNull
| VInt (n : Z)
| VText (s : string).

(** A row of [PRAGMA table_info]: (cid, name, type, notnull, dflt_value,
    pk); cid is the position of the row. *)
Record pragma_row := PragmaRow {
  pr_name : string;
  pr_type : string;
  pr_notnull : Z;
  pr_dflt_value : option string;
  pr_pk : Z
}.

(** A row of [sqlite_master] of type table, with the table it names. *)
Record stored_table := StoredTable {
  st_name : string;
  st_columns : list pragma_row;
  st_rows : list (list value)
}.

(** The store: its tables in catalog order. *)
Definition database := list stored_table.

Definition value_eqb (a b : value) : bool :=
  match a, b with
  | VNull, VNull => true
  | VInt x, VInt y => (x =? y)%Z
  | VText x, VText y => String.eqb x y
  | _, _ => false
  end.

Fixpoint row_eqb (r1 r2 : list value) : bool :=
  match r1, r2 with
  | [], [] => true
  | a :: r1', b :: r2' => value_eqb a b && row_eqb r1' r2'
  | _, _ => false
  end.

Definition is_null (v : value) : bool :=
  match v with VNull => true | _ => false end.

(** [x LIKE pattern]: any run for a percent sign, any one character for an
    underscore, letters in either case. *)
Fixpoint like (pat s : string) : bool :=
  match pat with
  | EmptyString => match s with EmptyString => true | _ => false end
  | String p pat' =>
      if Ascii.eqb p "%" then
        (fix any (s : string) : bool :=
           like pat' s
           || match s with
              | EmptyString => false
              | String _ s' => any s'
              end) s
      else
        match s with
        | EmptyString => false
        | String c s' =>
            (Ascii.eqb p "_" || Ascii.eqb (Py.upper_char p) (Py.upper_char c))
            && like pat' s'
        end
  end.

Definition find_stored (db : database) (table_name : string) : option stored_table :=
  List.find (fun t => String.eqb (st_name t) table_name) db.

Fixpoint position (x : string) (l : list string) : option nat :=
  match l with
  | [] => None
  | y :: l' =>
      if String.eqb x y then Some O
      else match position x l' with
           | Some i => Some (S i)
           | None => None
           end
  end.

(** The cell of [row] in the column named [col_name]. *)
Definition cell (t : stored_table) (col_name : string) (row : list value) : value :=
  match position col_name (map pr_name (st_columns t)) with
  | Some i => nth i row VNull
  | None => VNull
  end.

(** [SELECT col_name FROM table_name] *)
Definition select_column (db : database) (table_name col_name : string) : list value :=
  match find_stored db table_name with
  | Some t => map (cell t col_name) (st_rows t)
  | None => []
  end.

(** [SELECT col_names FROM table_name] *)
Definition select_columns (db : database) (table_name : string) (col_names : list string)
    : list (list value) :=
  match find_stored db table_name with
  | Some t => map (fun row => map (fun c => cell t c row) col_names) (st_rows t)
  | None => []
  end.

(** [SELECT name FROM sqlite_master WHERE type='table' AND name NOT LIKE 'sqlite_%'] *)
Definition select_table_names (db : database) : list string :=
  filter (fun n => negb (like "sqlite_%" n)) (map st_name db).

(** [PRAGMA table_info(table_name)] *)
Definition pragma_table_info (db : database) (table_name : string) : list pragma_row :=
  match find_stored db table_name with
  | Some t => st_columns t
  | None => []
  end.

(** [SELECT COUNT( * ) FROM table_name] *)
Definition select_count (db : database) (table_name : string) : Z :=
  match find_stored db table_name with
  | Some t => Z.of_nat (List.length (st_rows t))
  | None => 0
  end.

(** [SELECT COUNT( * ) FROM table_name WHERE col_name IS NULL] *)
Definition select_count_null (db : database) (table_name col_name : string) : Z :=
  Z.of_nat (List.length (filter is_null (select_column db table_name col_name))).

Fixpoint distinct (rows : list (list value)) : list (list value) :=
  match rows with
  | [] => []
  | r :: rows' => r :: filter (fun r' => negb (row_eqb r r')) (distinct rows')
  end.

(** [SELECT COUNT(DISTINCT col_name) FROM table_name]: NULL is not counted. *)
Definition select_count_distinct (db : database) (table_name col_name : string) : Z :=
  let cells := filter (fun v => negb (is_null v)) (select_column db table_name col_name) in
  Z.of_nat (List.length (distinct (map (fun v => [v]) cells))).

(** The order of MIN and MAX: an integer is below a text, integers by
    value, texts by their bytes. *)
Definition value_leb (a b : value) : bool :=
  match a, b with
  | VNull, _ => true
  | _, VNull => false
  | VInt x, VInt y => (x <=? y)%Z
  | VInt _, VText _ => true
  | VText _, VInt _ => false
  | VText x, VText y => String.leb x y
  end.

Definition aggregate (pick : value -> value -> value) (cells : list value) : value :=
  match filter (fun v => negb (is_null v)) cells with
  | [] => VNull
  | v :: vs => fold_left pick vs v
  end.

Definition sql_min (cells : list value) : value :=
  aggregate (fun a b => if value_leb a b then a else b) cells.

Definition sql_max (cells : list value) : value :=
  aggregate (fun a b => if value_leb a b then b else a) cells.

(** The number AVG reads in a cell; a text (one with no numeric prefix)
    reads as 0. *)
Definition numeric (v : value) : Z :=
  match v with
  | VInt n => n
  | _ => 0
  end.

(** AVG over the cells that are not NULL; NULL, Rocq's [None], when there
    is none. *)
Definition sql_avg (cells : list value) : option Q :=
  match filter (fun v => negb (is_null v)) cells with
  | [] => None
  | vs =>
      Some (Qred (Qmake (fold_left Z.add (map numeric vs) 0%Z)
                        (Pos.of_nat (List.length vs))))
  end.

(** [SELECT MIN(c), MAX(c), AVG(c) FROM table_name] *)
Definition select_min_max_avg (db : database) (table_name col_name : string)
    : value * value * option Q :=
  let cells := select_column db table_name col_name in
  (sql_min cells, sql_max cells, sql_avg cells).

(** The number of copies of [r] among [rows]. *)
Definition copies (r : list value) (rows : list (list value)) : nat :=
  List.length (filter (row_eqb r) rows).

(** [SELECT cols, COUNT( * ) ... GROUP BY cols] over the selected rows: each
    distinct row with the number of its copies.  NULL cells group together. *)
Definition group_by (rows : list (list value)) : list (list value * nat) :=
  map (fun k => (k, copies k rows)) (distinct rows).

(** The distinct rows that have more than one copy. *)
Definition duplicated_rows (rows : list (list value)) : list (list value) :=
  filter (fun k => (1 <? copies k rows)%nat) (distinct rows).

(** [SELECT COUNT( * ) FROM (SELECT col_names, COUNT( * ) as cnt
     FROM table_name GROUP BY col_names HAVING cnt > 1)] *)
Definition select_count_duplicate_groups (db : database) (table_name : string)
    (col_names : list string) : Z :=
  Z.of_nat (List.length
              (filter (fun g => (1 <? snd g)%nat)
                      (group_by (select_columns db table_name col_names)))).

(** *** Python numbers *)

Inductive pynum :=
| PInt (n : Z)
| PFloat (q : Q).

(** [a / b] on two [int]s, for [b > 0]. *)
Definition true_div (a b : Z) : Q := Qred (Qmake a (Z.to_pos b)).

(** The multiple of [10 ** -ndigits] nearest to [q], ties to the even one. *)
Definition round_half_even (q : Q) (ndigits : nat) : Q :=
  let scale := (10 ^ Z.of_nat ndigits)%Z in
  let num := (Qnum q * scale)%Z in
  let den := Zpos (Qden q) in
  let fl := (num / den)%Z in
  let r := (num mod den)%Z in
  let n := if (2 * r <? den)%Z then fl
           else if (den <? 2 * r)%Z then (fl + 1)%Z
           else if Z.even fl then fl else (fl + 1)%Z in
  Qred (Qmake n (Z.to_pos scale)).

(** [round(x, ndigits)]: an [int] stays an [int]. *)
Definition round (x : pynum) (ndigits : nat) : pynum :=
  match x with
  | PInt n => PInt n
  | PFloat q => PFloat (round_half_even q ndigits)
  end.

(** *** The schema *)

Record column := Column {
  col_name : string;
  col_type : string;
  col_nullable : bool;
  col_primary_key : bool;
  col_default : option string
}.

Record table := Table {
  name : string;
  columns : list column;
  row_count : Z
}.

(** The value of [schema["tables"]]. *)
Definition schema := list table.

Definition _get_table_info (db : database) (table_name : string) : table :=
  {| name := table_name;
     columns :=
       map (fun row =>
              {| col_name := pr_name row;
                 col_type := pr_type row;
                 col_nullable := (pr_notnull row =? 0)%Z;
                 col_primary_key := negb (pr_pk row =? 0)%Z;
                 col_default := pr_dflt_value row |})
           (pragma_table_info db table_name);
     row_count := select_count db table_name |}.

Definition get_schema (db : database) : schema :=
  map (_get_table_info db) (select_table_names db).

(** The line of a column. *)
Definition column_line (col : column) : string :=
  let pk := if col_primary_key col then " [PRIMARY KEY]" else EmptyString in
  let nullable := if col_nullable col then " (nullable)" else " (not null)" in
  "  - " ++ col_name col ++ ": " ++ col_type col ++ nullable ++ pk.

Definition newline : string := String "010" EmptyString.

(** The line that opens a table. *)
Definition table_line (tbl : table) : string :=
  newline ++ "Table: " ++ name tbl ++ " (" ++ Py.str (row_count tbl) ++ " rows)".

(** The body of [get_schema_as_text] on a fetched schema: [lines] is the
    list that the two loops append to. *)
Definition schema_as_text (s : schema) : string :=
  let lines := ["DATABASE SCHEMA:"; Py.replicate 50 "="] in
  let lines :=
    fold_left
      (fun lines tbl =>
         let lines :=
           (lines ++ [table_line tbl])%list in
         let lines := (lines ++ [Py.replicate 30 "-"])%list in
         fold_left (fun lines col => (lines ++ [column_line col])%list) (columns tbl) lines)
      s lines in
  Py.join newline lines.

(** What the loop body appends for a table. *)
Definition table_block (t : table) : list string :=
  table_line t :: Py.replicate 30 "-" :: map column_line (columns t).

(** The lines of the text for a table: an empty line, the table, a rule
    and the columns. *)
Definition table_text_lines (t : table) : list string :=
  EmptyString
    :: ("Table: " ++ name t ++ " (" ++ Py.str (row_count t) ++ " rows)")
    :: Py.replicate 30 "-"
    :: map column_line (columns t).

Definition get_schema_as_text (db : database) : string :=
  schema_as_text (get_schema db).

(** [next((t for t in schema["tables"] if t["name"] == table_name), None)] *)
Definition find_table (s : schema) (table_name : string) : option table :=
  List.find (fun t => String.eqb (name t) table_name) s.

(** *** Column statistics *)

(** One entry of the list returned by [get_column_statistics]; the keys
    min, max and avg are set together or not at all, and avg may be [None]. *)
Record col_stats := ColStats {
  cs_name : string;
  cs_type : string;
  cs_nullable : bool;
  cs_null_count : Z;
  cs_distinct_count : Z;
  cs_min_max_avg : option (value * value * option Q)
}.

Definition numeric_types : list string :=
  ["INTEGER"; "REAL"; "NUMERIC"; "FLOAT"; "DOUBLE"].

(** [x in numeric_types] *)
Definition is_numeric_type (type : string) : bool :=
  existsb (String.eqb (Py.upper type)) numeric_types.

(** [round(row[2], 2) if row[2] else None]: a float is true when it is not
    zero. *)
Definition rounded_avg (avg : option Q) : option Q :=
  match avg with
  | Some q => if Qeq_bool q 0 then None else Some (round_half_even q 2)
  | None => None
  end.

Definition column_statistics (db : database) (table_name : string) (col : column) : col_stats :=
  {| cs_name := col_name col;
     cs_type := col_type col;
     cs_nullable := col_nullable col;
     cs_null_count := select_count_null db table_name (col_name col);
     cs_distinct_count := select_count_distinct db table_name (col_name col);
     cs_min_max_avg :=
       if is_numeric_type (col_type col) then
         let '(mn, mx, avg) := select_min_max_avg db table_name (col_name col) in
         Some (mn, mx, rounded_avg avg)
       else None |}.

Definition get_column_statistics (db : database) (table_name : string) : list col_stats :=
  match find_table (get_schema db) table_name with
  | None => []
  | Some table_info => map (column_statistics db table_name) (columns table_info)
  end.

(** *** Data quality metrics *)

(** The [dict] returned by [get_data_quality_metrics]: empty, or with its
    four keys. *)
Inductive metrics_dict :=
| EmptyDict
| Metrics (completeness : pynum) (null_count : Z) (duplicate_count : Z) (unique_ratio : pynum).

(** A table with no column makes the grouping query ill-formed, and the
    store refuses it. *)
Definition get_data_quality_metrics (db : database) (table_name : string) : outcome metrics_dict :=
  match find_table (get_schema db) table_name with
  | None => Returned EmptyDict
  | Some table_info =>
      let total_cells := (row_count table_info * Z.of_nat (List.length (columns table_info)))%Z in
      let null_count :=
        fold_left (fun null_count col =>
                     (null_count + select_count_null db table_name (col_name col))%Z)
                  (columns table_info) 0%Z in
      let completeness :=
        if (0 <? total_cells)%Z
        then PFloat (Qred (true_div (total_cells - null_count) total_cells * 100)%Q)
        else PInt 100 in
      match columns table_info with
      | [] => Raised OperationalError
      | first_col :: _ =>
          let duplicate_count :=
            select_count_duplicate_groups db table_name (map col_name (columns table_info)) in
          let distinct := select_count_distinct db table_name (col_name first_col) in
          let unique_ratio :=
            if (0 <? row_count table_info)%Z
            then PFloat (true_div distinct (row_count table_info))
            else PInt 1 in
          Returned (Metrics (round completeness 2) null_count duplicate_count
                            (round unique_ratio 4))
      end
  end.

(** [SELECT name FROM sqlite_master WHERE type='table' AND name=?] has a row. *)
Definition table_exists (db : database) (table_name : string) : bool :=
  existsb (fun t => String.eqb (st_name t) table_name) db.

Definition get_table_names (db : database) : list string :=
  select_table_names db.

End DatabaseService.

(** ** app/routers/summarize.py *)

Module Summarize.

Import DatabaseService.

(** What [summarize_data] gathers before it calls the model: the statistics,
    the metrics and the row count.  An exception other than [HTTPException]
    is turned into INTERNAL_ERROR by the handler. *)
Definition summarize_data (db : database) (table_name : string)
    : http_error + (list col_stats * metrics_dict * Z) :=
  if negb (table_exists db table_name) then
    inl (HttpError 404 TABLE_NOT_FOUND (get_table_names db))
  else
    let column_stats := get_column_statistics db table_name in
    match get_data_quality_metrics db table_name with
    | Raised _ => inl (HttpError 500 INTERNAL_ERROR [])
    | Returned quality_metrics =>
        match find_table (get_schema db) table_name with
        | None => inl (HttpError 500 INTERNAL_ERROR [])
        | Some table_info => inr (column_stats, quality_metrics, row_count table_info)
        end
    end.

End Summarize.

(** ** The endpoints of app/routers/query.py and app/routers/explain.py *)

Module Routers.

Import Json.

(** The exponent that an exponent group denotes; 0 for the empty group. *)
Definition exponent_value (exp : string) : Z :=
  match exp with
  | String _ r =>
      match r with
      | String "-" ds => (- int_of_digits ds)%Z
      | String "+" ds => int_of_digits ds
      | _ => int_of_digits r
      end
  | EmptyString => 0%Z
  end.

(** [float(lexeme) == 0.0] for the lexeme of a JSON number: the digits are
    all zero, or the decimal is so small that the nearest double is zero
    (at most 2 ** -1075, halfway to the least positive double).  NaN and
    the infinities are not numbers of this form, and are not zero. *)
Definition float_is_zero (lexeme : string) : bool :=
  match integer_part lexeme with
  | Some (_, ds, r) =>
      let (frac, r1) := frac_part r in
      let (exp, _) := exp_part r1 in
      let fs := Py.drop 1 frac in
      let m := int_of_digits (ds ++ fs) in
      let e := (exponent_value exp - Z.of_nat (String.length fs))%Z in
      (m =? 0)%Z || ((e <? 0)%Z && (m * 2 ^ 1075 <=? 10 ^ (- e))%Z)
  | None => false
  end.

(** [bool(v)] for a decoded JSON value. *)
Definition truthy (v : json) : bool :=
  match v with
  | JNull => false
  | JBool b => b
  | JInt n => negb (n =? 0)%Z
  | JFloat lexeme => negb (float_is_zero lexeme)
  | JStr s => negb (String.eqb s EmptyString)
  | JArr items => match items with [] => false | _ => true end
  | JObj members => match members with [] => false | _ => true end
  end.

(** The [response_data] that [query_data] hands to [QueryResponse]. *)
Record query_response (R : Type) := QueryResponse {
  success : bool;
  original_question : string;
  generated_sql : string;
  query_explanation : json;
  results : option (list R);
  row_count : option Z;
  execution_time_ms : option Q
}.

Arguments QueryResponse {R}.
Arguments success {R}.
Arguments original_question {R}.
Arguments generated_sql {R}.
Arguments query_explanation {R}.
Arguments results {R}.
Arguments row_count {R}.
Arguments execution_time_ms {R}.

(** [query_data], from the text that the model returned to the data of the
    response.  [execute_query] is [db.execute_query], which returns the rows
    and the elapsed time or raises.  A generated value that is true and is
    not a [str] has no [upper], and the handler turns the exception into
    INTERNAL_ERROR. *)
Definition query_data {R : Type} (question : string) (execute : bool) (limit : Z)
    (response : string) (execute_query : string -> outcome (list R * Q))
    : http_error + query_response R :=
  match LLMService.generate_sql response with
  | Raised _ => inl (HttpError 500 INTERNAL_ERROR [])
  | Returned result =>
      let generated_sql := LLMService.sql result in
      let explanation := LLMService.sql_explanation result in
      if negb (truthy generated_sql) then
        inl (HttpError 400 SQL_GENERATION_FAILED [])
      else
        match generated_sql with
        | JStr generated_sql =>
            match validate generated_sql limit with
            | inl e => inl e
            | inr generated_sql =>
                if execute then
                  match execute_query generated_sql with
                  | Returned (results, exec_time) =>
                      inr {| success := true;
                             original_question := question;
                             generated_sql := generated_sql;
                             query_explanation := explanation;
                             results := Some results;
                             row_count := Some (Z.of_nat (List.length results));
                             execution_time_ms :=
                               Some (DatabaseService.round_half_even exec_time 2) |}
                  | Raised _ => inl (HttpError 400 QUERY_EXECUTION_FAILED [])
                  end
                else
                  inr {| success := true;
                         original_question := question;
                         generated_sql := generated_sql;
                         query_explanation := explanation;
                         results := None;
                         row_count := None;
                         execution_time_ms := None |}
            end
        | _ => inl (HttpError 500 INTERNAL_ERROR [])
        end
  end.

Definition sql_keywords : list string :=
  ["SELECT"; "INSERT"; "UPDATE"; "DELETE"; "CREATE"; "DROP"; "ALTER"; "WITH"].

(** The arguments that the explain endpoint hands to [ExplainResponse]. *)
Record explain_response := ExplainResponse {
  original_query : string;
  response_explanation : json;
  query_components : json;
  tables_involved : json;
  estimated_complexity : json;
  response_optimization_tips : json;
  response_potential_issues : json
}.

(** [explain_query] of the router, from the request and the text that the
    model returned. *)
Definition explain_query (sql_query : string) (include_optimization_tips : bool)
    (response : string) : http_error + explain_response :=
  let sql_upper := Py.strip (Py.upper sql_query) in
  if negb (existsb (fun kw => Py.startswith kw sql_upper) sql_keywords) then
    inl (HttpError 400 INVALID_SQL [])
  else
    let tables := extract_tables_from_sql sql_query in
    match LLMService.explain_query response include_optimization_tips with
    | Raised _ => inl (HttpError 500 INTERNAL_ERROR [])
    | Returned result =>
        let llm_tables := LLMService.tables result in
        let final_tables := if truthy llm_tables then llm_tables else JArr (map JStr tables) in
        inr {| original_query := sql_query;
               response_explanation := LLMService.explanation result;
               query_components := LLMService.components result;
               tables_involved := final_tables;
               estimated_complexity := LLMService.complexity result;
               response_optimization_tips :=
                 if include_optimization_tips
                 then LLMService.optimization_tips result else JNull;
               response_potential_issues := LLMService.potential_issues result |}
    end.

End Routers.

(** ** Measures used in the statements *)

(** The value of a Python number. *)
Definition pynum_value (x : DatabaseService.pynum) : Q :=
  match x with
  | DatabaseService.PInt n => inject_Z n
  | DatabaseService.PFloat q => q
  end.

(** The sum of a list of integers. *)
Definition sum_Z (l : list Z) : Z := fold_right Z.add 0%Z l.

(** The text without its last character. *)
Definition but_last (s : string) : string := Py.take (String.length s - 1) s.

(** The names that the loops of the extractor have added. *)
Definition extracted (sql t : string) : Prop :=
  exists kw m,
    In kw patterns
    /\ In m (Re.findall (Re.keyword_name kw) (Py.upper sql))
    /\ Py.find m (Py.upper sql) <> (-1)%Z
    /\ t = Py.slice sql (Py.find m (Py.upper sql))
                    (Py.find m (Py.upper sql) + Z.of_nat (String.length m))
    /\ Py.upper t = m.

(** ** Stores used as examples *)

Module Examples.

Import DatabaseService.

(** The table of the spec's statistics example: columns (id INT, name TEXT)
    and rows (1,'a'), (2,NULL), (2,'a'). *)
Definition people : stored_table :=
  {| st_name := "people";
     st_columns := [PragmaRow "id" "INT" 0 None 0; PragmaRow "name" "TEXT" 0 None 0];
     st_rows := [[VInt 1; VText "a"]; [VInt 2; VNull]; [VInt 2; VText "a"]] |}.

(** A table whose INTEGER column holds -5 and 5. *)
Definition ledger : stored_table :=
  {| st_name := "ledger";
     st_columns := [PragmaRow "id" "INTEGER" 1 None 1; PragmaRow "balance" "INTEGER" 1 None 0];
     st_rows := [[VInt 1; VInt (-5)]; [VInt 2; VInt 5]] |}.

(** A table with no row. *)
Definition archive : stored_table :=
  {| st_name := "archive";
     st_columns := [PragmaRow "id" "INTEGER" 1 None 1; PragmaRow "note" "TEXT" 0 None 0];
     st_rows := [] |}.

(** A table with declared types outside the numeric list. *)
Definition prices : stored_table :=
  {| st_name := "prices";
     st_columns := [PragmaRow "qty" "INT" 1 None 0;
                    PragmaRow "amount" "DECIMAL(10,2)" 1 None 0;
                    PragmaRow "weight" "numeric" 0 None 0];
     st_rows := [[VInt 3; VInt 10; VInt 2]; [VInt 4; VInt 20; VNull]] |}.

(** A table in which one row has three copies. *)
Definition tags : stored_table :=
  {| st_name := "tags";
     st_columns := [PragmaRow "tag" "TEXT" 0 None 0];
     st_rows := [[VText "new"]; [VText "sale"]; [VText "new"]; [VText "new"]] |}.

Definition store : database := [people; ledger; archive; prices; tags].

End Examples.

(** * Properties *)

(** ** Strings *)

Section StringFacts.

Lemma prefix_nil (s : string) : String.prefix EmptyString s = true.
Proof. destruct s; reflexivity. Qed.

Lemma prefix_cons (a b : ascii) (p s : string) :
  String.prefix (String a p) (String b s) = Ascii.eqb a b && String.prefix p s.
Proof.
  simpl. destruct (ascii_dec a b) as [->|Hne].
  - now rewrite Ascii.eqb_refl.
  - apply Ascii.eqb_neq in Hne. now rewrite Hne.
Qed.

Lemma prefix_cons_nil (a : ascii) (p : string) :
  String.prefix (String a p) EmptyString = false.
Proof. reflexivity. Qed.

Lemma upper_app (a b : string) : Py.upper (a ++ b) = Py.upper a ++ Py.upper b.
Proof. induction a as [|c a IH]; simpl; [reflexivity | now rewrite IH]. Qed.

Lemma app_assoc_string (a b c : string) : (a ++ b) ++ c = a ++ b ++ c.
Proof. induction a as [|x a IH]; simpl; [reflexivity | now rewrite IH]. Qed.

Lemma app_nil_r_string (a : string) : a ++ EmptyString = a.
Proof. induction a as [|x a IH]; simpl; [reflexivity | now rewrite IH]. Qed.

(** A prefix of [a] is a prefix of [a ++ b]. *)
Lemma prefix_app_l (p a b : string) :
  String.prefix p a = true -> String.prefix p (a ++ b) = true.
Proof.
  revert a; induction p as [|x p IH]; intros a H.
  - apply prefix_nil.
  - destruct a as [|y a]; [discriminate|].
    cbn [append]. rewrite prefix_cons in *.
    apply andb_true_iff in H as [-> H]. simpl. now apply IH.
Qed.

(** When the text that follows [u] starts with a character that does not
    occur in [p], no occurrence of [p] reaches over the end of [u]. *)
Lemma prefix_app_outside (p u t : string) (t0 : ascii) :
  Py.all_chars (fun c => negb (Ascii.eqb c t0)) p = true ->
  String.prefix p (u ++ String t0 t) = String.prefix p u.
Proof.
  revert u; induction p as [|x p IH]; intros u H.
  - now rewrite !prefix_nil.
  - simpl in H. apply andb_true_iff in H as [Hx Hp].
    destruct u as [|y u]; cbn [append].
    + rewrite prefix_cons, prefix_cons_nil.
      apply negb_true_iff in Hx. now rewrite Hx.
    + rewrite !prefix_cons. now rewrite IH.
Qed.

Lemma count_sub_app_outside (p u t : string) (t0 : ascii) :
  Py.all_chars (fun c => negb (Ascii.eqb c t0)) p = true ->
  Py.count_sub p (u ++ String t0 t) = Py.count_sub p u + Py.count_sub p (String t0 t).
Proof.
  intros H. set (k := Py.count_sub p (String t0 t)).
  induction u as [|y u IH].
  - reflexivity.
  - change (String y u ++ String t0 t) with (String y (u ++ String t0 t)).
    cbn [Py.count_sub]. rewrite IH.
    change (String y (u ++ String t0 t)) with (String y u ++ String t0 t).
    rewrite (prefix_app_outside p (String y u) t t0 H). lia.
Qed.

Lemma contains_false_count (p s : string) :
  Py.contains p s = false -> Py.count_sub p s = 0.
Proof.
  induction s as [|c s IH]; intros H.
  - reflexivity.
  - cbn [Py.contains] in H. apply orb_false_iff in H as [H1 H2].
    cbn [Py.count_sub]. rewrite H1, (IH H2). reflexivity.
Qed.

Lemma contains_app_l (p a b : string) :
  Py.contains p (a ++ b) = false -> Py.contains p a = false.
Proof.
  induction a as [|c a IH]; intros H.
  - destruct p as [|x p]; [|reflexivity].
    destruct b; discriminate H.
  - change (String c a ++ b) with (String c (a ++ b)) in H.
    cbn [Py.contains] in *. apply orb_false_iff in H as [H1 H2].
    rewrite (IH H2), orb_false_r.
    destruct (String.prefix p (String c a)) eqn:E; [|reflexivity].
    apply (prefix_app_l _ _ b) in E. cbn [append] in E. congruence.
Qed.

(** Stripping characters that do not occur in [p] from either end of a
    text neither adds nor removes an occurrence of [p]. *)
Lemma prefix_rstrip (q : ascii -> bool) (p s : string) :
  Py.all_chars (fun c => negb (q c)) p = true ->
  String.prefix p (Py.rstrip_with q s) = String.prefix p s.
Proof.
  revert p; induction s as [|c s IH]; intros p H.
  - reflexivity.
  - destruct p as [|x p]; [now rewrite !prefix_nil|].
    simpl in H. apply andb_true_iff in H as [Hx Hp].
    specialize (IH p Hp). cbn [Py.rstrip_with].
    destruct (Py.rstrip_with q s) as [|r0 r] eqn:E.
    + destruct (q c) eqn:Hc.
      * rewrite prefix_cons_nil, prefix_cons.
        destruct (Ascii.eqb x c) eqn:Exc; [|reflexivity].
        apply Ascii.eqb_eq in Exc; subst. rewrite Hc in Hx. discriminate.
      * rewrite !prefix_cons. now rewrite IH.
    + rewrite !prefix_cons. now rewrite IH.
Qed.

Lemma contains_rstrip (q : ascii -> bool) (x : ascii) (p s : string) :
  Py.all_chars (fun c => negb (q c)) (String x p) = true ->
  Py.contains (String x p) (Py.rstrip_with q s) = Py.contains (String x p) s.
Proof.
  intros H. induction s as [|c s IH].
  - reflexivity.
  - pose proof (prefix_rstrip q (String x p) (String c s) H) as Hpre.
    cbn [Py.rstrip_with] in *.
    destruct (Py.rstrip_with q s) as [|r0 r] eqn:E.
    + destruct (q c) eqn:Hc.
      * cbn [Py.contains]. rewrite <- Hpre, <- IH. reflexivity.
      * cbn [Py.contains]. rewrite <- Hpre, <- IH. reflexivity.
    + cbn [Py.contains] in *. rewrite <- Hpre, <- IH. reflexivity.
Qed.

Lemma contains_lstrip (x : ascii) (p s : string) :
  Py.is_space x = false ->
  Py.contains (String x p) (Py.lstrip s) = Py.contains (String x p) s.
Proof.
  intros Hx. induction s as [|c s IH].
  - reflexivity.
  - cbn [Py.lstrip]. destruct (Py.is_space c) eqn:Hc; [|reflexivity].
    rewrite IH. cbn [Py.contains]. rewrite prefix_cons.
    destruct (Ascii.eqb x c) eqn:E; [|reflexivity].
    apply Ascii.eqb_eq in E; subst. congruence.
Qed.

Lemma contains_strip (x : ascii) (p s : string) :
  Py.all_chars (fun c => negb (Py.is_space c)) (String x p) = true ->
  Py.contains (String x p) (Py.strip s) = Py.contains (String x p) s.
Proof.
  intros H. unfold Py.strip. rewrite contains_rstrip by exact H.
  apply contains_lstrip. simpl in H. apply andb_true_iff in H as [H _].
  now apply negb_true_iff in H.
Qed.

(** [rstrip] removes a run of characters of the class, and what it leaves
    does not end in the class. *)
Lemma rstrip_with_app (q : ascii -> bool) (s : string) :
  exists t, s = Py.rstrip_with q s ++ t /\ Py.all_chars q t = true.
Proof.
  induction s as [|c s [t [Hs Ht]]].
  - exists EmptyString; split; reflexivity.
  - cbn [Py.rstrip_with].
    destruct (Py.rstrip_with q s) as [|r0 r] eqn:E.
    + destruct (q c) eqn:Hc.
      * exists (String c s). split; [reflexivity|].
        simpl. rewrite Hc. simpl in Hs. now rewrite Hs.
      * exists t. split; [|exact Ht]. simpl in *. now rewrite <- Hs.
    + exists t. split; [|exact Ht]. simpl in *. now rewrite <- Hs.
Qed.

Lemma rstrip_with_last (q : ascii -> bool) (s : string) (c : ascii) :
  Py.last_char (Py.rstrip_with q s) = Some c -> q c = false.
Proof.
  revert c; induction s as [|a s IH]; intros c H.
  - discriminate.
  - cbn [Py.rstrip_with] in H.
    destruct (Py.rstrip_with q s) as [|r0 r] eqn:E.
    + destruct (q a) eqn:Ha; [discriminate|].
      simpl in H. now injection H as <-.
    + apply IH. exact H.
Qed.

Lemma all_semicolons (t : string) :
  Py.all_chars is_semicolon t = true -> t = Py.replicate (String.length t) ";".
Proof.
  induction t as [|c t IH]; intros H.
  - reflexivity.
  - simpl in H. apply andb_true_iff in H as [Hc Ht].
    apply Ascii.eqb_eq in Hc; subst. simpl. now rewrite <- IH.
Qed.

Lemma string_of_uint_digits (d : Decimal.uint) :
  Py.all_chars Py.digit_or_minus (NilEmpty.string_of_uint d) = true.
Proof. induction d; simpl; auto. Qed.

Lemma str_digits (n : Z) : Py.all_chars Py.digit_or_minus (Py.str n) = true.
Proof.
  unfold Py.str, NilZero.string_of_int.
  destruct (Z.to_int n) as [d|d]; unfold NilZero.string_of_uint.
  - destruct d; try reflexivity; apply (string_of_uint_digits (_ d)).
  - simpl. destruct d; try reflexivity; apply (string_of_uint_digits (_ d)).
Qed.

Lemma upper_digits (s : string) :
  Py.all_chars Py.digit_or_minus s = true -> Py.upper s = s.
Proof.
  induction s as [|c s IH]; intros H.
  - reflexivity.
  - simpl in H. apply andb_true_iff in H as [Hc Hs].
    simpl. rewrite (IH Hs). f_equal.
    unfold Py.upper_char.
    destruct (Py.is_lower c) eqn:E; [|reflexivity].
    exfalso. revert Hc E. unfold Py.digit_or_minus, Py.is_digit, Py.is_lower.
    destruct (Ascii.eqb_spec c "-") as [->|_]; [discriminate|].
    rewrite orb_false_r.
    intros H1 H2. apply andb_true_iff in H1 as [_ H1]. apply andb_true_iff in H2 as [H2 _].
    apply Nat.leb_le in H1, H2. lia.
Qed.

Lemma count_sub_digits (x : ascii) (p s : string) :
  Py.digit_or_minus x = false ->
  Py.all_chars Py.digit_or_minus s = true -> Py.count_sub (String x p) s = 0.
Proof.
  intros Hx. induction s as [|c s IH]; intros H.
  - reflexivity.
  - simpl in H. apply andb_true_iff in H as [Hc Hs].
    cbn [Py.count_sub]. rewrite (IH Hs), prefix_cons.
    destruct (Ascii.eqb_spec x c) as [->|_]; [congruence | reflexivity].
Qed.

End StringFacts.

(** ** The SELECT-only guard and the row limit *)

Lemma validate_refuses (sql : string) (n : Z) :
  validate sql n = inl NotASelectStatement <->
  Py.startswith "SELECT" (Py.strip (Py.upper sql)) = false.
Proof.
  unfold validate.
  destruct (Py.startswith "SELECT" (Py.strip (Py.upper sql))); simpl.
  - split; [|discriminate].
    destruct (negb (Py.contains "LIMIT" (Py.strip (Py.upper sql)))); discriminate.
  - split; reflexivity.
Qed.

Lemma limit_occurs_once (r : string) (n : Z) :
  Py.contains "LIMIT" (Py.upper r) = false ->
  Py.count_sub "LIMIT" (Py.upper (r ++ " LIMIT " ++ Py.str n)) = 1.
Proof.
  intros H.
  rewrite upper_app.
  change (Py.upper (" LIMIT " ++ Py.str n))
    with (String " " (Py.upper ("LIMIT " ++ Py.str n))).
  rewrite (count_sub_app_outside "LIMIT" _ _ " " eq_refl).
  rewrite (contains_false_count _ _ H).
  rewrite upper_app, (upper_digits _ (str_digits n)).
  change (Py.upper "LIMIT ") with "LIMIT ".
  cbn [append Py.count_sub String.prefix]. simpl.
  now rewrite (count_sub_digits "L" "IMIT" _ eq_refl (str_digits n)).
Qed.

(** C1.  For every SQL text and requested limit the guard either refuses
    the text with NotASelectStatement, which it does exactly when the
    stripped, upper-cased text does not start with SELECT, or accepts it.
    When the accepted text has no LIMIT in it, in any letter case, the
    result is the text without its trailing semicolons followed by
    [" LIMIT n"]: the text is what is left plus a run of semicolons, what is
    left does not end in a semicolon, and the result has LIMIT exactly
    once. *)
Theorem validate_select_guard_and_limit (sql : string) (n : Z) :
  (validate sql n = inl NotASelectStatement <->
   Py.startswith "SELECT" (Py.strip (Py.upper sql)) = false)
  /\ (Py.startswith "SELECT" (Py.strip (Py.upper sql)) = true ->
      exists out,
        validate sql n = inr out
        /\ (Py.contains "LIMIT" (Py.upper sql) = false ->
            let kept := Py.rstrip_with is_semicolon sql in
            out = kept ++ " LIMIT " ++ Py.str n
            /\ (exists k, sql = kept ++ Py.replicate k ";")
            /\ Py.last_char kept <> Some ";"%char
            /\ Py.count_sub "LIMIT" (Py.upper out) = 1)).
Proof.
  split; [apply validate_refuses|].
  intros Hsel. unfold validate. rewrite Hsel. cbn [negb].
  rewrite (contains_strip "L" "IMIT" _ eq_refl).
  destruct (Py.contains "LIMIT" (Py.upper sql)) eqn:Hlim; cbn [negb].
  - exists sql. split; [reflexivity | discriminate].
  - eexists. split; [reflexivity|]. intros _. cbv zeta.
    destruct (rstrip_with_app is_semicolon sql) as [t [Hs Ht]].
    split; [reflexivity|]. split; [|split].
    + exists (String.length t). rewrite <- (all_semicolons t Ht). exact Hs.
    + intros Hl. apply rstrip_with_last in Hl. discriminate.
    + apply limit_occurs_once.
      apply (contains_app_l _ _ (Py.upper t)).
      now rewrite <- upper_app, <- Hs.
Qed.

(** The guard on a statement that ends in a semicolon, with limit 10. *)
Lemma validate_select_guard_and_limit_witness :
  validate "select * from customers;" 10 = inr "select * from customers LIMIT 10"
  /\ Py.count_sub "LIMIT" (Py.upper "select * from customers LIMIT 10") = 1.
Proof.
  destruct (validate_select_guard_and_limit "select * from customers;" 10) as [_ H].
  destruct (H eq_refl) as [out [Hv Hout]].
  destruct (Hout eq_refl) as [Ho [_ [_ Hc]]].
  cbv zeta in Ho. rewrite Ho in Hv, Hc. split; [exact Hv | exact Hc].
Defined.

(** ** The JSON scanner *)

Import Json.

Ltac break_hyp H :=
  match type of H with
  | context [match ?x with _ => _ end] => destruct x eqn:?
  | context [if ?x then _ else _] => destruct x eqn:?
  end.

Lemma emit_some cs x v rest :
  emit cs x = Some (v, rest) -> exists v', x = Some (v', rest).
Proof.
  unfold emit. destruct x as [[v' r']|]; [|discriminate].
  intros H. injection H as _ <-. now exists v'.
Qed.

Lemma scanstring_shorter_aux (n : nat) :
  forall s v rest, String.length s <= n -> scanstring s = Some (v, rest) ->
    String.length rest < String.length s.
Proof.
  induction n as [|n IH]; intros s v rest Hn H.
  - destruct s; [discriminate | simpl in Hn; lia].
  - destruct s as [|c r]; [discriminate|]. cbn [scanstring] in H.
    repeat (break_hyp H; try discriminate);
      try (injection H as <- <-; simpl; lia);
      try (apply emit_some in H as [v' H]; apply IH in H; simpl in *; lia).
Qed.

Lemma scanstring_shorter s v rest :
  scanstring s = Some (v, rest) -> String.length rest < String.length s.
Proof. apply (scanstring_shorter_aux (String.length s)); lia. Qed.

Lemma skip_ws_length s : String.length (skip_ws s) <= String.length s.
Proof.
  induction s as [|c s IH]; simpl; [lia|].
  destruct (is_ws c); simpl; lia.
Qed.

Lemma span_length p s a b :
  Re.span p s = (a, b) -> String.length s = String.length a + String.length b.
Proof.
  revert a b; induction s as [|c s IH]; intros a b H; simpl in H.
  - injection H as <- <-. reflexivity.
  - destruct (p c).
    + destruct (Re.span p s) as [a' b'] eqn:E. injection H as <- <-.
      simpl. now rewrite (IH a' b' eq_refl).
    + injection H as <- <-. reflexivity.
Qed.

Lemma literal_length ci lit s m rest :
  Re.literal ci lit s = Some (m, rest) ->
  String.length s = String.length lit + String.length rest.
Proof.
  revert s m; induction lit as [|l lit IH]; intros s m H; simpl in H.
  - now injection H as _ <-.
  - destruct s as [|c s]; [discriminate|].
    destruct (if ci then _ else _); [|discriminate].
    destruct (Re.literal ci lit s) as [[m' r']|] eqn:E; [|discriminate].
    injection H as _ <-. simpl. now rewrite (IH _ _ E).
Qed.

Lemma minus_sign_length s neg r :
  minus_sign s = (neg, r) -> String.length r <= String.length s.
Proof.
  unfold minus_sign. intros H.
  repeat (break_hyp H; try discriminate); injection H as <- <-; simpl; lia.
Qed.

Lemma exp_sign_length s sg r :
  exp_sign s = (sg, r) -> String.length r <= String.length s.
Proof.
  unfold exp_sign. intros H.
  repeat (break_hyp H; try discriminate); injection H as <- <-; simpl; lia.
Qed.

Lemma integer_part_shorter s neg ds r :
  integer_part s = Some (neg, ds, r) -> String.length r < String.length s.
Proof.
  unfold integer_part. intros H.
  destruct (minus_sign s) as [neg' r0] eqn:Es. apply minus_sign_length in Es.
  destruct r0 as [|c r1]; [discriminate|].
  destruct (Ascii.eqb c "0").
  - injection H as _ _ <-. simpl in Es. lia.
  - destruct (Py.is_digit c); [|discriminate].
    destruct (Re.span Py.is_digit r1) as [a b] eqn:E. apply span_length in E.
    injection H as _ _ <-. simpl in Es. lia.
Qed.

Lemma frac_part_length s f r :
  frac_part s = (f, r) -> String.length r <= String.length s.
Proof.
  unfold frac_part. intros H.
  repeat (break_hyp H; try discriminate);
    repeat match goal with
           | E : Re.span _ _ = _ |- _ => apply span_length in E
           end;
    injection H as <- <-; simpl in *; lia.
Qed.

Lemma exp_part_length s f r :
  exp_part s = (f, r) -> String.length r <= String.length s.
Proof.
  unfold exp_part. intros H.
  destruct s as [|e s']; [injection H as <- <-; lia|].
  destruct (_ || _); [|injection H as <- <-; lia].
  destruct (exp_sign s') as [sg r1] eqn:Es. apply exp_sign_length in Es.
  destruct (Re.span Py.is_digit r1) as [a b] eqn:E. apply span_length in E.
  destruct a; injection H as <- <-; simpl in *; lia.
Qed.

Lemma match_number_shorter s v r :
  match_number s = Some (v, r) -> String.length r < String.length s.
Proof.
  unfold match_number. intros H.
  destruct (integer_part s) as [[[neg ds] r0]|] eqn:Ei; [|discriminate].
  apply integer_part_shorter in Ei.
  destruct (frac_part r0) as [f r1] eqn:Ef. apply frac_part_length in Ef.
  destruct (exp_part r1) as [x r2] eqn:Ex. apply exp_part_length in Ex.
  destruct f, x; injection H as _ <-; lia.
Qed.

Lemma scan_atom_shorter s v r :
  scan_atom s = Some (v, r) -> String.length r < String.length s.
Proof.
  unfold scan_atom. intros H.
  repeat (break_hyp H;
          try match goal with
              | p : (_ * _)%type |- _ => destruct p
              end);
    try discriminate;
    injection H as <- <-;
    repeat match goal with
           | E : Re.literal _ _ _ = Some _ |- _ => apply literal_length in E
           | E : match_number _ = Some _ |- _ => apply match_number_shorter in E
           end;
    simpl in *; lia.
Qed.

Ltac skip_facts :=
  repeat match goal with
         | E : skip_ws ?r = ?x |- _ =>
             let L := fresh "L" in
             pose proof (skip_ws_length r) as L; rewrite E in L; clear E
         | H : context [String.length (skip_ws ?r)] |- _ =>
             lazymatch goal with
             | _ : String.length (skip_ws r) <= String.length r |- _ => fail
             | _ => pose proof (skip_ws_length r)
             end
         | |- context [String.length (skip_ws ?r)] =>
             lazymatch goal with
             | _ : String.length (skip_ws r) <= String.length r |- _ => fail
             | _ => pose proof (skip_ws_length r)
             end
         end.

Ltac break_all H := repeat (break_hyp H; try discriminate).

Lemma scan_shorter (f : nat) :
  (forall s v rest, scan_once f s = Parsed v rest ->
                    String.length rest < String.length s)
  /\ (forall s acc v rest, parse_members f s acc = Parsed v rest ->
                           String.length rest < String.length s)
  /\ (forall s acc v rest, parse_elements f s acc = Parsed v rest ->
                           String.length rest < String.length s).
Proof.
  induction f as [|f [IH1 [IH2 IH3]]].
  - repeat split; intros; discriminate.
  - repeat split.
    + intros s v rest H. cbn [scan_once] in H.
      break_all H;
        try (injection H as <- <-);
        repeat match goal with
               | E : scanstring _ = Some _ |- _ => apply scanstring_shorter in E
               | E : scan_atom _ = Some _ |- _ => apply scan_atom_shorter in E
               | E : parse_members f _ _ = Parsed _ _ |- _ => apply IH2 in E
               | E : parse_elements f _ _ = Parsed _ _ |- _ => apply IH3 in E
               end;
        skip_facts; simpl in *; lia.
    + intros s acc v rest H. cbn [parse_members] in H.
      break_all H;
        try (injection H as <- <-);
        repeat match goal with
               | E : scanstring _ = Some _ |- _ => apply scanstring_shorter in E
               | E : scan_once f _ = Parsed _ _ |- _ => apply IH1 in E
               | E : parse_members f _ _ = Parsed _ _ |- _ => apply IH2 in E
               end;
        skip_facts; simpl in *; lia.
    + intros s acc v rest H. cbn [parse_elements] in H.
      break_all H;
        try (injection H as <- <-);
        repeat match goal with
               | E : scan_once f _ = Parsed _ _ |- _ => apply IH1 in E
               | E : parse_elements f _ _ = Parsed _ _ |- _ => apply IH3 in E
               end;
        skip_facts; simpl in *; lia.
Qed.

Ltac length_facts f :=
  repeat match goal with
         | E : scanstring _ = Some _ |- _ => apply scanstring_shorter in E
         | E : scan_once f _ = Parsed _ _ |- _ => apply (proj1 (scan_shorter f)) in E
         end;
  skip_facts; simpl in *.

Lemma scan_fuel (f : nat) :
  (forall s, 2 * String.length s + 1 <= f -> scan_once f s <> OutOfFuel)
  /\ (forall s acc, 2 * String.length s + 1 <= f -> parse_members f s acc <> OutOfFuel)
  /\ (forall s acc, 2 * String.length s + 2 <= f -> parse_elements f s acc <> OutOfFuel).
Proof.
  induction f as [|f [IH1 [IH2 IH3]]].
  - repeat split; intros; lia.
  - repeat split.
    + intros s Hle H. cbn [scan_once] in H.
      break_all H;
        match goal with
        | E : parse_members f _ _ = OutOfFuel |- _ => apply IH2 in E; [exact E|]
        | E : parse_elements f _ _ = OutOfFuel |- _ => apply IH3 in E; [exact E|]
        end;
        length_facts f; lia.
    + intros s acc Hle H. cbn [parse_members] in H.
      break_all H;
        match goal with
        | E : parse_members f _ _ = OutOfFuel |- _ => apply IH2 in E; [exact E|]
        | E : scan_once f _ = OutOfFuel |- _ => apply IH1 in E; [exact E|]
        end;
        length_facts f; lia.
    + intros s acc Hle H. cbn [parse_elements] in H.
      break_all H;
        match goal with
        | E : parse_elements f _ _ = OutOfFuel |- _ => apply IH3 in E; [exact E|]
        | E : scan_once f _ = OutOfFuel |- _ => apply IH1 in E; [exact E|]
        end;
        length_facts f; lia.
Qed.

Lemma loads_fuel_suffices (s : string) : scan_once (fuel_for s) s <> OutOfFuel.
Proof. apply scan_fuel. unfold fuel_for. lia. Qed.

(** An object is all that the scanner reads at an opening brace. *)
Lemma parse_members_object (f : nat) :
  forall s acc v rest, parse_members f s acc = Parsed v rest -> exists d, v = JObj d.
Proof.
  induction f as [|f IH]; intros s acc v rest H; [discriminate|].
  cbn [parse_members] in H.
  break_all H; try (injection H as <- <-; eauto); eauto.
Qed.

Lemma scan_once_object (f : nat) (r : string) v rest :
  scan_once f (String "{" r) = Parsed v rest -> exists d, v = JObj d.
Proof.
  destruct f as [|f]; [discriminate|]. cbn [scan_once].
  change (Ascii.eqb "{" "034") with false. change (Ascii.eqb "{" "{") with true.
  cbv iota. intros H.
  break_all H; try (injection H as <- <-; eauto).
  all: eapply parse_members_object; eassumption.
Qed.

Lemma loads_object (r : string) v :
  loads (String "{" r) = Some v -> exists d, v = JObj d.
Proof.
  unfold loads. change (skip_ws (String "{" r)) with (String "{" r).
  destruct (scan_once _ _) as [v' rest| |] eqn:E; try discriminate.
  apply scan_once_object in E as [d ->].
  destruct (skip_ws rest); [|discriminate]. intros H; injection H as <-. eauto.
Qed.

(** ** The decoders of the model's text *)

Import LLMService.

Lemma search_flat_object_brace (s t : string) :
  Re.search Re.flat_object s = Some t -> exists r, t = String "{" r.
Proof.
  induction s as [|c s IH]; cbn [Re.search]; intros H.
  - discriminate.
  - destruct (Re.flat_object (String c s)) as [t'|] eqn:E.
    + injection H as <-. unfold Re.flat_object in E.
      break_all E. injection E as <-. eauto.
    + exact (IH H).
Qed.

Lemma search_greedy_object_brace (s t : string) :
  Re.search Re.greedy_object s = Some t -> exists r, t = String "{" r.
Proof.
  induction s as [|c s IH]; cbn [Re.search]; intros H.
  - discriminate.
  - destruct (Re.greedy_object (String c s)) as [t'|] eqn:E.
    + injection H as <-. unfold Re.greedy_object in E.
      break_all E. injection E as <-. eauto.
    + exact (IH H).
Qed.

(** No decoder raises: what [json.loads] returns for a text that starts
    with a brace is a [dict]. *)
Lemma generate_sql_returns (response : string) :
  exists r, generate_sql response = Returned r.
Proof.
  unfold generate_sql, generate_sql_json_tier.
  destruct (Re.search Re.flat_object response) as [text|] eqn:E.
  - apply search_flat_object_brace in E as [r ->].
    destruct (loads (String "{" r)) as [v|] eqn:L.
    + apply loads_object in L as [d ->]. eauto.
    + destruct (generate_sql_regex_tier response); eauto.
  - destruct (generate_sql_regex_tier response); eauto.
Qed.

Lemma explain_query_returns (response : string) (include_tips : bool) :
  exists r, explain_query response include_tips = Returned r.
Proof.
  unfold explain_query, explain_query_json_tier.
  destruct (Re.search Re.greedy_object response) as [text|] eqn:E; [|eauto].
  apply search_greedy_object_brace in E as [r ->].
  destruct (loads (String "{" r)) as [v|] eqn:L; [|eauto].
  apply loads_object in L as [d ->]. eauto.
Qed.

Lemma summarize_data_returns (response : string) :
  exists r, summarize_data response = Returned r.
Proof.
  unfold summarize_data, summarize_data_json_tier.
  destruct (Re.search Re.greedy_object response) as [text|] eqn:E; [|eauto].
  apply search_greedy_object_brace in E as [r ->].
  destruct (loads (String "{" r)) as [v|] eqn:L; [|eauto].
  apply loads_object in L as [d ->]. eauto.
Qed.

(** The second tier finds a statement exactly when SELECT, in either
    letter case, is somewhere followed by a character other than a
    semicolon. *)
Lemma select_statement_none (s : string) :
  Re.select_statement s = None <-> Re.select_start s = false.
Proof.
  unfold Re.select_statement, Re.select_start.
  destruct (Re.literal true "SELECT" s) as [[kw r]|]; [|tauto].
  destruct r as [|c r]; [simpl; tauto|].
  cbn [Re.span]. destruct (Re.not_semicolon c) eqn:Hc.
  - destruct (Re.span Re.not_semicolon r) as [a b].
    split; [|discriminate]. intros H. break_all H.
  - tauto.
Qed.

Lemma search_select_statement_none (s : string) :
  Re.search Re.select_statement s = None <-> Re.anywhere Re.select_start s = false.
Proof.
  induction s as [|c s IH]; cbn [Re.search Re.anywhere].
  - rewrite orb_false_r. destruct (Re.select_statement EmptyString) eqn:E.
    + split; [discriminate|]. intros H. apply select_statement_none in H. congruence.
    + apply select_statement_none in E. tauto.
  - destruct (Re.select_statement (String c s)) eqn:E.
    + split; [discriminate|]. intros H. apply orb_false_iff in H as [H _].
      apply select_statement_none in H. congruence.
    + apply select_statement_none in E. rewrite E. exact IH.
Qed.




(** ** Fallbacks for absent fields *)

Lemma get_absent (d : dict) (k : string) (default : json) :
  dict_lookup k d = None -> get d k default = default.
Proof. unfold get. now intros ->. Qed.

Lemma lookup_pop_ne (k k' : string) (d : dict) :
  k <> k' -> dict_lookup k (pop k' d) = dict_lookup k d.
Proof.
  intros Hne. induction d as [|[k0 v0] d IH]; [reflexivity|].
  cbn [pop dict_lookup].
  destruct (String.eqb_spec k' k0) as [->|Hk'].
  - destruct (String.eqb_spec k k0); [contradiction | reflexivity].
  - cbn [dict_lookup]. now rewrite IH.
Qed.

(** C7, as amended.  When the JSON tier of a decoder has parsed the object
    [d], each field that [d] lacks is given the fallback of that decoder: in
    [generate_sql] the empty text for sql and the text "Query generated
    from natural language" for explanation; in [explain_query] the empty
    text for explanation, the empty mapping for components, the empty list
    for tables and "moderate" for complexity; in [summarize_data] the empty
    text for summary and the empty list for insights. *)
Theorem absent_field_fallbacks (response text : string) (d : dict) :
  loads text = Some (JObj d) ->
  (Re.search Re.flat_object response = Some text ->
   exists r, generate_sql response = Returned r
     /\ (dict_lookup "sql" d = None -> sql r = JStr EmptyString)
     /\ (dict_lookup "explanation" d = None ->
         sql_explanation r = JStr "Query generated from natural language"))
  /\ (Re.search Re.greedy_object response = Some text ->
      (forall include_tips, exists r,
          explain_query response include_tips = Returned r
          /\ (dict_lookup "explanation" d = None -> explanation r = JStr EmptyString)
          /\ (dict_lookup "components" d = None -> components r = JObj [])
          /\ (dict_lookup "tables" d = None -> tables r = JArr [])
          /\ (dict_lookup "complexity" d = None -> complexity r = JStr "moderate"))
      /\ (exists r, summarize_data response = Returned r
          /\ (dict_lookup "summary" d = None -> summary r = JStr EmptyString)
          /\ (dict_lookup "insights" d = None -> insights r = JArr []))).
Proof.
  intros Hload. split.
  - intros Hm. unfold generate_sql, generate_sql_json_tier. rewrite Hm, Hload.
    eexists. split; [reflexivity|]. cbn [sql sql_explanation].
    split; apply get_absent.
  - intros Hm. split.
    + intros include_tips.
      unfold explain_query, explain_query_json_tier. rewrite Hm, Hload.
      eexists. split; [reflexivity|].
      cbn [explanation components tables complexity].
      destruct include_tips; cbn [negb];
        repeat split; intros Hk; apply get_absent; try exact Hk;
        rewrite lookup_pop_ne; try exact Hk; discriminate.
    + unfold summarize_data, summarize_data_json_tier. rewrite Hm, Hload.
      eexists. split; [reflexivity|]. cbn [summary insights].
      split; apply get_absent.
Qed.

(** An object that has the summary and not the insights. *)
Lemma absent_field_fallbacks_witness :
  exists r, summarize_data (dq "Here it is: {'summary': 'Five tables.'}") = Returned r
    /\ summary r = JStr "Five tables." /\ insights r = JArr [].
Proof.
  destruct (absent_field_fallbacks
              (dq "Here it is: {'summary': 'Five tables.'}")
              (dq "{'summary': 'Five tables.'}")
              [("summary", JStr "Five tables.")] eq_refl) as [_ H].
  destruct (H eq_refl) as [_ [r [Hr [_ Hi]]]].
  exists r. split; [exact Hr|]. split; [|exact (Hi eq_refl)].
  vm_compute in Hr. injection Hr as <-. reflexivity.
Defined.

(** C7, as stated, fails in [generate_sql]: the object that is parsed has
    no explanation, and the explanation that is returned is not empty. *)
Lemma generate_sql_absent_explanation :
  let response := dq "{'sql': 'SELECT 1'}" in
  Re.search Re.flat_object response = Some response
  /\ loads response = Some (JObj [("sql", JStr "SELECT 1")])
  /\ dict_lookup "explanation" [("sql", JStr "SELECT 1")] = None
  /\ generate_sql response =
       Returned {| sql := JStr "SELECT 1";
                   sql_explanation := JStr "Query generated from natural language" |}
  /\ JStr "Query generated from natural language" <> JStr EmptyString.
Proof. repeat split; try (vm_compute; reflexivity). discriminate. Qed.

(** ** The table-name extractor *)

(** C8 fails on the code.  In the statement below the name that follows
    FROM is written Orders, at index 22; the extractor looks the matched
    name up with [find], which stops at index 7, where the select list
    spells it orders, and returns that spelling. *)
Theorem extract_tables_first_occurrence :
  let sql := "SELECT orders.id FROM Orders" in
  Re.findall (Re.keyword_name "FROM") (Py.upper sql) = ["ORDERS"]
  /\ Re.keyword_name "FROM" (Py.drop 17 (Py.upper sql)) = Some ("ORDERS", 11)
  /\ Py.slice sql 22 28 = "Orders"
  /\ Py.find "ORDERS" (Py.upper sql) = 7%Z
  /\ Py.slice sql 7 13 = "orders"
  /\ extract_tables_from_sql sql = ["orders"].
Proof. repeat split; vm_compute; reflexivity. Qed.

(** ** The schema and the statistics *)

Import DatabaseService.

Lemma find_some_eqb {A : Type} (key : A -> string) (l : list A) (k : string) (x : A) :
  List.find (fun t => String.eqb (key t) k) l = Some x -> In x l /\ key x = k.
Proof.
  intros H. apply find_some in H as [Hin Heq].
  apply String.eqb_eq in Heq. now split.
Qed.

Lemma find_none_eqb {A : Type} (key : A -> string) (l : list A) (k : string) :
  List.find (fun t => String.eqb (key t) k) l = None <-> ~ In k (map key l).
Proof.
  split.
  - intros H Hin. apply in_map_iff in Hin as [x [Hk Hx]].
    pose proof (find_none _ _ H x Hx) as Hf. cbv beta in Hf.
    rewrite Hk, String.eqb_refl in Hf. discriminate.
  - intros H. destruct (List.find _ l) as [x|] eqn:E; [|reflexivity].
    apply find_some_eqb in E as [Hin Hk]. exfalso. apply H.
    rewrite <- Hk. now apply in_map.
Qed.

(** The entry of the schema for a name is the one fetched under that name. *)
Lemma find_table_fetched (db : database) (table_name : string) (t : table) :
  find_table (get_schema db) table_name = Some t ->
  t = _get_table_info db table_name /\ In table_name (select_table_names db).
Proof.
  intros H. apply find_some_eqb in H as [Hin Hname].
  unfold get_schema in Hin. apply in_map_iff in Hin as [n [Ht Hn]].
  subst t. cbn [name _get_table_info] in Hname. subst n. now split.
Qed.

Lemma schema_names (db : database) : map name (get_schema db) = get_table_names db.
Proof.
  unfold get_schema, get_table_names. rewrite map_map. cbn [name _get_table_info].
  apply map_id.
Qed.

(** A name the catalog does not have is not in the schema either. *)
Lemma table_exists_false_absent (db : database) (table_name : string) :
  table_exists db table_name = false -> ~ In table_name (map name (get_schema db)).
Proof.
  intros H Hin. rewrite schema_names in Hin.
  unfold get_table_names, select_table_names in Hin.
  apply filter_In in Hin as [Hin _]. apply in_map_iff in Hin as [t [Hn Ht]].
  assert (table_exists db table_name = true); [|congruence].
  apply existsb_exists. exists t. split; [exact Ht|]. now apply String.eqb_eq.
Qed.

(** C3, as amended.  For every table name that the schema snapshot does not
    have, [get_column_statistics] returns the empty list and
    [get_data_quality_metrics] the empty mapping; neither raises.  The
    TableNotFound error is raised by the summarize endpoint, for every name
    that the catalog of the store does not have, and its details list the
    names of the tables of the schema. *)
Theorem absent_table_statistics (db : database) (table_name : string) :
  (~ In table_name (map name (get_schema db)) ->
   get_column_statistics db table_name = []
   /\ get_data_quality_metrics db table_name = Returned EmptyDict)
  /\ (table_exists db table_name = false ->
      ~ In table_name (map name (get_schema db))
      /\ Summarize.summarize_data db table_name =
           inl (HttpError 404 TABLE_NOT_FOUND (map name (get_schema db)))).
Proof.
  split.
  - intros H. apply find_none_eqb in H. fold (find_table (get_schema db) table_name) in H.
    unfold get_column_statistics, get_data_quality_metrics. now rewrite H.
  - intros H. split; [now apply table_exists_false_absent|].
    unfold Summarize.summarize_data. rewrite H. cbn [negb].
    now rewrite schema_names.
Qed.

(** A name that the example store does not have. *)
Lemma absent_table_statistics_witness :
  get_column_statistics Examples.store "orders" = []
  /\ get_data_quality_metrics Examples.store "orders" = Returned EmptyDict
  /\ Summarize.summarize_data Examples.store "orders" =
       inl (HttpError 404 TABLE_NOT_FOUND ["people"; "ledger"; "archive"; "prices"; "tags"]).
Proof.
  destruct (absent_table_statistics Examples.store "orders") as [H1 H2].
  destruct (H2 eq_refl) as [Habs Hsum].
  destruct (H1 Habs) as [Hc Hm].
  split; [exact Hc|]. split; [exact Hm|]. exact Hsum.
Defined.

(** C3, as stated, fails: for a name that the schema does not have, both
    functions return, with an empty result. *)
Lemma absent_table_returns_empty :
  find_table (get_schema Examples.store) "orders" = None
  /\ get_column_statistics Examples.store "orders" = []
  /\ get_data_quality_metrics Examples.store "orders" = Returned EmptyDict.
Proof. repeat split; vm_compute; reflexivity. Qed.

(** The guard on the average refuses NULL and zero alike. *)
Lemma rounded_avg_none (avg : option Q) :
  rounded_avg avg = None <-> avg = None \/ exists q, avg = Some q /\ Qeq q 0.
Proof.
  unfold rounded_avg. destruct avg as [q|].
  - destruct (Qeq_bool q 0) eqn:E.
    + apply Qeq_bool_iff in E. split; [|reflexivity]. intros _. right. eauto.
    + split; [discriminate|]. intros [H|[q' [H Hq]]]; [discriminate|].
      injection H as <-. apply Qeq_bool_iff in Hq. congruence.
  - split; [|reflexivity]. now left.
Qed.

(** C4 fails on the code.  The INTEGER column balance of the ledger holds
    -5 and 5 and no NULL; its average is 0, a number, and the statistics
    report None for it, as they do for a column with no value at all. *)
Theorem average_zero_reported_as_none :
  select_column Examples.store "ledger" "balance" = [VInt (-5); VInt 5]
  /\ sql_avg [VInt (-5); VInt 5] = Some (Qmake 0 1)
  /\ nth_error (get_column_statistics Examples.store "ledger") 1 =
       Some {| cs_name := "balance";
               cs_type := "INTEGER";
               cs_nullable := false;
               cs_null_count := 0;
               cs_distinct_count := 2;
               cs_min_max_avg := Some (VInt (-5), VInt 5, None) |}.
Proof. repeat split; vm_compute; reflexivity. Qed.



(** ** The text of the schema *)

(** The two loops append, for each table in turn, its opening line, a rule
    and the lines of its columns. *)
Lemma fold_column_lines (cols : list column) (lines : list string) :
  fold_left (fun lines col => (lines ++ [column_line col])%list) cols lines =
  (lines ++ map column_line cols)%list.
Proof.
  revert lines; induction cols as [|c cols IH]; intros lines; cbn [fold_left map].
  - now rewrite app_nil_r.
  - rewrite IH, <- app_assoc. reflexivity.
Qed.

Lemma fold_table_blocks (s : schema) (lines : list string) :
  fold_left
    (fun lines tbl =>
       let lines := (lines ++ [table_line tbl])%list in
       let lines := (lines ++ [Py.replicate 30 "-"])%list in
       fold_left (fun lines col => (lines ++ [column_line col])%list) (columns tbl) lines)
    s lines =
  (lines ++ flat_map table_block s)%list.
Proof.
  revert lines; induction s as [|t s IH]; intros lines; cbn [fold_left flat_map].
  - now rewrite app_nil_r.
  - rewrite IH. cbv zeta. rewrite fold_column_lines.
    unfold table_block. rewrite <- !app_assoc. reflexivity.
Qed.

Lemma join_cons (sep x y : string) (l : list string) :
  Py.join sep (x :: y :: l) = x ++ sep ++ Py.join sep (y :: l).
Proof. reflexivity. Qed.

(** A line that starts with the separator is an empty line and a line. *)
Lemma join_line_split (sep x : string) (pre post : list string) :
  Py.join sep (pre ++ (sep ++ x)%string :: post)%list =
  Py.join sep (pre ++ EmptyString :: x :: post)%list.
Proof.
  induction pre as [|p pre IH].
  - cbn [List.app]. rewrite join_cons. destruct post as [|y post].
    + cbn [Py.join]. reflexivity.
    + rewrite !join_cons. cbn [append]. now rewrite app_assoc_string.
  - destruct pre as [|p' pre].
    + cbn [List.app] in *. now rewrite !(join_cons sep p), IH.
    + cbn [List.app] in *. now rewrite !(join_cons sep p), IH.
Qed.

Lemma join_table_blocks (s : schema) (pre : list string) :
  Py.join newline (pre ++ flat_map table_block s)%list =
  Py.join newline (pre ++ flat_map table_text_lines s)%list.
Proof.
  revert pre; induction s as [|t s IH]; intros pre; cbn [flat_map].
  - reflexivity.
  - unfold table_block at 1, table_text_lines at 1, table_line.
    cbn [List.app]. rewrite join_line_split.
    change (pre ++ EmptyString :: ?x :: ?y :: (?cols ++ ?rest))%list
      with (pre ++ (EmptyString :: x :: y :: cols) ++ rest)%list.
    rewrite !app_assoc. apply IH.
Qed.

Lemma last_char_none (s : string) : Py.last_char s = None -> s = EmptyString.
Proof.
  induction s as [|c s IH]; [reflexivity|].
  cbn [Py.last_char]. destruct s; [discriminate|]. intros H. discriminate (IH H).
Qed.

Lemma last_char_app (a b : string) :
  Py.last_char (a ++ b) =
  match Py.last_char b with
  | Some c => Some c
  | None => Py.last_char a
  end.
Proof.
  induction a as [|x a IH].
  - cbn [append]. destruct (Py.last_char b); reflexivity.
  - cbn [append]. cbn [Py.last_char]. rewrite IH.
    destruct (Py.last_char b) as [c|] eqn:E.
    + destruct (a ++ b) eqn:Eab; [|reflexivity].
      destruct a; [|discriminate Eab]. cbn [append] in Eab. subst b. discriminate E.
    + apply last_char_none in E. subst b. rewrite app_nil_r_string.
      destruct a; reflexivity.
Qed.

(** C9.  The text of a schema is a header of two lines and then, for each
    table in the order of the schema, an empty line, the line
    "Table: <name> (<row_count> rows)", a rule, and one line per column in
    the order of the columns; the line of a column is
    "  - <name>: <type> (nullable)" or "  - <name>: <type> (not null)",
    and " [PRIMARY KEY]" follows exactly when the column is a primary key.
    The tables of a fetched schema are in catalog order and their columns
    in declaration order. *)
Theorem schema_text_layout (s : schema) :
  schema_as_text s =
    Py.join newline
      (["DATABASE SCHEMA:"; Py.replicate 50 "="] ++ flat_map table_text_lines s)%list
  /\ (forall c,
        column_line c =
          "  - " ++ col_name c ++ ": " ++ col_type c
          ++ (if col_nullable c then " (nullable)" else " (not null)")
          ++ (if col_primary_key c then " [PRIMARY KEY]" else EmptyString)
        /\ (Py.last_char (column_line c) = Some "]"%char <-> col_primary_key c = true))
  /\ (forall db,
        get_schema_as_text db = schema_as_text (get_schema db)
        /\ map name (get_schema db) =
             filter (fun n => negb (like "sqlite_%" n)) (map st_name db)
        /\ forall n, map col_name (columns (_get_table_info db n)) =
                     map pr_name (pragma_table_info db n)).
Proof.
  split; [|split].
  - unfold schema_as_text. cbv zeta. rewrite fold_table_blocks.
    apply join_table_blocks.
  - intros c. split; [reflexivity|].
    unfold column_line. cbv zeta.
    destruct (col_nullable c), (col_primary_key c);
      rewrite !last_char_app; cbn; split; congruence.
  - intros db. split; [reflexivity|]. split.
    + apply schema_names.
    + intros n. cbn [columns _get_table_info]. rewrite map_map. reflexivity.
Qed.

(** ** Duplicate rows *)

Lemma value_eqb_eq (a b : value) : value_eqb a b = true <-> a = b.
Proof.
  destruct a, b; cbn; try (split; [discriminate | intros H; discriminate H]);
    try tauto.
  - rewrite Z.eqb_eq. split; congruence.
  - rewrite String.eqb_eq. split; congruence.
Qed.

Lemma row_eqb_eq (r1 r2 : list value) : row_eqb r1 r2 = true <-> r1 = r2.
Proof.
  revert r2; induction r1 as [|a r1 IH]; intros [|b r2]; cbn;
    try (split; [discriminate | intros H; discriminate H]); try tauto.
  rewrite andb_true_iff, value_eqb_eq, IH. split.
  - intros [-> ->]. reflexivity.
  - intros H. injection H as -> ->. now split.
Qed.

Lemma row_eqb_refl (r : list value) : row_eqb r r = true.
Proof. now apply row_eqb_eq. Qed.

Lemma in_distinct (k : list value) (rows : list (list value)) :
  In k (distinct rows) <-> In k rows.
Proof.
  induction rows as [|r rows IH]; cbn [distinct]; [tauto|].
  cbn [In]. rewrite filter_In, IH.
  destruct (row_eqb r k) eqn:E.
  - apply row_eqb_eq in E. subst. cbn. tauto.
  - cbn. intuition.
Qed.

Lemma copies_zero (k : list value) (rows : list (list value)) :
  ~ In k rows -> copies k rows = 0.
Proof.
  unfold copies. induction rows as [|r rows IH]; intros H; [reflexivity|].
  cbn [filter]. destruct (row_eqb k r) eqn:E.
  - apply row_eqb_eq in E. subst. exfalso. apply H. now left.
  - apply IH. intros Hin. apply H. now right.
Qed.

Lemma copies_positive (k : list value) (rows : list (list value)) :
  In k rows -> 1 <= copies k rows.
Proof.
  unfold copies. induction rows as [|r rows IH]; intros H; [destruct H|].
  cbn [filter]. destruct (row_eqb k r) eqn:E; [cbn; lia|].
  destruct H as [->|H]; [|now apply IH].
  rewrite row_eqb_refl in E. discriminate.
Qed.

(** No row is repeated exactly when no row has more than one copy. *)
Lemma nodup_copies (rows : list (list value)) :
  NoDup rows <-> forall k, In k rows -> copies k rows <= 1.
Proof.
  induction rows as [|r rows IH].
  - split; [intros _ k []|constructor].
  - split.
    + intros H k Hk. inversion H as [|? ? Hnot Hnd]; subst.
      unfold copies. cbn [filter]. destruct (row_eqb k r) eqn:E.
      * apply row_eqb_eq in E. subst. cbn [List.length].
        fold (copies r rows). rewrite (copies_zero r rows Hnot). lia.
      * fold (copies k rows). destruct Hk as [->|Hk].
        -- rewrite row_eqb_refl in E. discriminate.
        -- now apply (proj1 IH).
    + intros H. constructor.
      * intros Hin. specialize (H r (or_introl eq_refl)).
        unfold copies in H. cbn [filter] in H. rewrite row_eqb_refl in H.
        cbn [List.length] in H. apply copies_positive in Hin.
        unfold copies in Hin. lia.
      * apply IH. intros k Hk. specialize (H k (or_intror Hk)).
        unfold copies in *. cbn [filter] in H.
        destruct (row_eqb k r); cbn [List.length] in H; lia.
Qed.

Lemma duplicated_rows_groups (rows : list (list value)) :
  filter (fun g => (1 <? snd g)%nat) (group_by rows) =
  map (fun k => (k, copies k rows)) (duplicated_rows rows).
Proof.
  unfold group_by, duplicated_rows.
  induction (distinct rows) as [|k ks IH]; [reflexivity|].
  cbn [map filter snd]. destruct (1 <? copies k rows)%nat; cbn [map]; now rewrite IH.
Qed.

Lemma duplicated_rows_nil (rows : list (list value)) :
  duplicated_rows rows = [] <-> NoDup rows.
Proof.
  rewrite nodup_copies. unfold duplicated_rows. split.
  - intros H k Hk. apply (proj2 (in_distinct k rows)) in Hk.
    destruct (1 <? copies k rows)%nat eqn:E.
    + assert (Hin : In k (filter (fun k => (1 <? copies k rows)%nat) (distinct rows))).
      { apply filter_In. now split. }
      rewrite H in Hin. destruct Hin.
    + apply Nat.ltb_ge in E. exact E.
  - intros H. destruct (filter _ (distinct rows)) as [|k ks] eqn:E; [reflexivity|].
    assert (Hin : In k (filter (fun k => (1 <? copies k rows)%nat) (distinct rows))).
    { rewrite E. now left. }
    apply filter_In in Hin as [Hin Hc]. apply (proj1 (in_distinct k rows)) in Hin.
    apply Nat.ltb_lt in Hc. specialize (H k Hin). lia.
Qed.



(** ** Quality metrics *)

(** A table that counts no row has no cell to select. *)
Lemma no_row_no_cell (db : database) (table_name : string) :
  select_count db table_name = 0%Z ->
  (forall col_name, select_column db table_name col_name = [])
  /\ (forall col_names, select_columns db table_name col_names = []).
Proof.
  unfold select_count, select_column, select_columns.
  destruct (find_stored db table_name) as [st|]; [|now split].
  intros H. destruct (st_rows st); [now split|]. cbn [List.length] in H. lia.
Qed.

Lemma fold_null_count_zero (db : database) (table_name : string) (cols : list column) :
  (forall c, select_column db table_name c = []) ->
  fold_left (fun null_count col =>
               (null_count + select_count_null db table_name (col_name col))%Z)
            cols 0%Z = 0%Z.
Proof.
  intros H. induction cols as [|c cols IH]; [reflexivity|].
  cbn [fold_left]. unfold select_count_null at 2. rewrite H. exact IH.
Qed.



(** * Further properties of the code *)

(** ** The guard on its own output *)

Lemma lstrip_app (x : ascii) (p a b : string) :
  String.prefix (String x p) (Py.lstrip a) = true ->
  Py.lstrip (a ++ b) = Py.lstrip a ++ b.
Proof.
  induction a as [|c a IH]; intros H.
  - discriminate H.
  - cbn [append Py.lstrip] in *. destruct (Py.is_space c); [exact (IH H) | reflexivity].
Qed.

Lemma prefix_lstrip_semicolons (a t : string) :
  Py.all_chars is_semicolon t = true ->
  String.prefix "SELECT" (Py.lstrip (a ++ t)) = true ->
  String.prefix "SELECT" (Py.lstrip a) = true.
Proof.
  intros Ht. induction a as [|c a IH]; intros H.
  - cbn [append] in H. destruct t as [|s t]; [discriminate H|].
    cbn [Py.all_chars] in Ht. apply andb_true_iff in Ht as [Hs _].
    apply Ascii.eqb_eq in Hs. subst s. discriminate H.
  - cbn [append Py.lstrip] in *. destruct (Py.is_space c); [exact (IH H)|].
    destruct t as [|s t].
    + now rewrite app_nil_r_string in H.
    + cbn [Py.all_chars] in Ht. apply andb_true_iff in Ht as [Hs _].
      apply Ascii.eqb_eq in Hs. subst s.
      change (String c (a ++ String ";" t)) with (String c a ++ String ";" t) in H.
      now rewrite (prefix_app_outside "SELECT" _ _ ";" eq_refl) in H.
Qed.

Lemma upper_semicolons (t : string) :
  Py.all_chars is_semicolon t = true -> Py.upper t = t.
Proof.
  induction t as [|c t IH]; intros H; [reflexivity|].
  cbn [Py.all_chars] in H. apply andb_true_iff in H as [Hc Ht].
  apply Ascii.eqb_eq in Hc. subst c. cbn [Py.upper]. now rewrite (IH Ht).
Qed.

Lemma contains_app_r (p a b : string) :
  Py.contains p b = true -> Py.contains p (a ++ b) = true.
Proof.
  intros H. induction a as [|c a IH]; [exact H|].
  cbn [append Py.contains]. rewrite IH. apply orb_true_r.
Qed.

Lemma validate_output_select_limit (sql : string) (n : Z) (out : string) :
  validate sql n = inr out ->
  Py.startswith "SELECT" (Py.strip (Py.upper out)) = true
  /\ Py.contains "LIMIT" (Py.upper out) = true.
Proof.
  intros H. unfold validate in H.
  destruct (Py.startswith "SELECT" (Py.strip (Py.upper sql))) eqn:Hsel;
    cbn [negb] in H; [|discriminate H].
  rewrite (contains_strip "L" "IMIT" _ eq_refl) in H.
  destruct (Py.contains "LIMIT" (Py.upper sql)) eqn:Hlim; cbn [negb] in H;
    injection H as <-.
  - now split.
  - destruct (rstrip_with_app is_semicolon sql) as [t [Hs Ht]].
    set (kept := Py.rstrip_with is_semicolon sql) in *.
    unfold Py.startswith, Py.strip in *.
    rewrite (prefix_rstrip Py.is_space "SELECT" _ eq_refl) in Hsel.
    rewrite Hs, upper_app, (upper_semicolons t Ht) in Hsel.
    apply (prefix_lstrip_semicolons _ _ Ht) in Hsel.
    split.
    + rewrite (prefix_rstrip Py.is_space "SELECT" _ eq_refl).
      rewrite upper_app, (lstrip_app "S" "ELECT" _ _ Hsel).
      now apply prefix_app_l.
    + rewrite upper_app. apply contains_app_r. reflexivity.
Qed.

(** X1.  Whatever the guard accepts, it returns a statement that starts
    with SELECT once upper-cased and stripped and that has LIMIT in it, and
    the guard returns that statement unchanged when it is applied to it
    again, with any limit. *)
Theorem validate_output_guarded (sql : string) (n : Z) (out : string) :
  validate sql n = inr out ->
  Py.startswith "SELECT" (Py.strip (Py.upper out)) = true
  /\ Py.contains "LIMIT" (Py.upper out) = true
  /\ forall m, validate out m = inr out.
Proof.
  intros H. apply validate_output_select_limit in H as [Hsel Hlim].
  split; [exact Hsel|]. split; [exact Hlim|].
  intros m. unfold validate. rewrite Hsel. cbn [negb].
  rewrite (contains_strip "L" "IMIT" _ eq_refl), Hlim. reflexivity.
Qed.

(** A statement that is given its limit, and is then left alone. *)
Lemma validate_output_guarded_witness :
  validate "select name from customers;" 10 = inr "select name from customers LIMIT 10"
  /\ validate "select name from customers LIMIT 10" 500 =
       inr "select name from customers LIMIT 10".
Proof.
  split; [reflexivity|].
  exact (proj2 (proj2 (validate_output_guarded
                         "select name from customers;" 10
                         "select name from customers LIMIT 10" eq_refl)) 500%Z).
Defined.

(** ** The query endpoint *)

(** X2.  A response of the query endpoint carries only guarded SQL: its
    statement starts with SELECT and has LIMIT in it; when execution was
    asked for, the rows are those that the store returned for exactly that
    statement and the row count is their number; when it was not, the
    response has neither rows nor a count. *)
Theorem query_data_response_guarded {R : Type}
    (question : string) (execute : bool) (limit : Z) (response : string)
    (execute_query : string -> outcome (list R * Q)) (r : Routers.query_response R) :
  Routers.query_data question execute limit response execute_query = inr r ->
  Routers.success r = true
  /\ Routers.original_question r = question
  /\ Py.startswith "SELECT" (Py.strip (Py.upper (Routers.generated_sql r))) = true
  /\ Py.contains "LIMIT" (Py.upper (Routers.generated_sql r)) = true
  /\ (if execute
      then exists rows t,
          execute_query (Routers.generated_sql r) = Returned (rows, t)
          /\ Routers.results r = Some rows
          /\ Routers.row_count r = Some (Z.of_nat (List.length rows))
      else Routers.results r = None /\ Routers.row_count r = None).
Proof.
  unfold Routers.query_data. intros H.
  destruct (generate_sql response) as [result|e]; [|discriminate H].
  destruct (negb (Routers.truthy (sql result))); [discriminate H|].
  destruct (sql result) as [| | | |s| |]; try discriminate H.
  destruct (validate s limit) as [e|out] eqn:Hv; [discriminate H|].
  apply validate_output_select_limit in Hv as [Hsel Hlim].
  destruct execute.
  - destruct (execute_query out) as [[rows t]|e] eqn:He; [|discriminate H].
    injection H as <-. cbn. repeat split; try assumption. eauto.
  - injection H as <-. cbn. repeat split; assumption.
Qed.

(** The spec's end-to-end example, with a store that answers two rows. *)
Lemma query_data_response_guarded_witness :
  let response := dq "{'sql':'SELECT * FROM customers','explanation':'lists customers'}" in
  let store := fun _ : string => Returned ([1%Z; 2%Z], Qmake 5 4) in
  exists r,
    Routers.query_data "show all customers" true 10 response store = inr r
    /\ Routers.generated_sql r = "SELECT * FROM customers LIMIT 10"
    /\ Routers.row_count r = Some 2%Z.
Proof.
  intros response store.
  eexists. split; [vm_compute; reflexivity|].
  split; [reflexivity|].
  destruct (query_data_response_guarded "show all customers" true 10 response store _
              eq_refl) as [_ [_ [_ [_ [rows [t [He [_ Hc]]]]]]]].
  vm_compute in He. injection He as <- _. exact Hc.
Defined.



(** ** The statement that the second tier extracts *)

Lemma upper_char_space (c : ascii) : Py.is_space (Py.upper_char c) = Py.is_space c.
Proof. destruct c as [[] [] [] [] [] [] [] []]; reflexivity. Qed.

Lemma upper_char_semicolon (c : ascii) :
  Re.not_semicolon (Py.upper_char c) = Re.not_semicolon c.
Proof. destruct c as [[] [] [] [] [] [] [] []]; reflexivity. Qed.

Lemma all_chars_upper (p : ascii -> bool) (s : string) :
  (forall c, p (Py.upper_char c) = p c) ->
  Py.all_chars p (Py.upper s) = Py.all_chars p s.
Proof.
  intros Hp. induction s as [|c s IH]; [reflexivity|].
  cbn [Py.upper Py.all_chars]. now rewrite Hp, IH.
Qed.

Lemma all_chars_app (p : ascii -> bool) (a b : string) :
  Py.all_chars p (a ++ b) = Py.all_chars p a && Py.all_chars p b.
Proof.
  induction a as [|c a IH]; [reflexivity|].
  cbn [append Py.all_chars]. now rewrite IH, andb_assoc.
Qed.

Lemma all_chars_take (p : ascii -> bool) (n : nat) (s : string) :
  Py.all_chars p s = true -> Py.all_chars p (Py.take n s) = true.
Proof.
  revert n; induction s as [|c s IH]; intros n H; destruct n; try reflexivity.
  cbn [Py.take Py.all_chars] in *. apply andb_true_iff in H as [Hc Hs].
  now rewrite Hc, IH.
Qed.

Lemma upper_lstrip (s : string) : Py.upper (Py.lstrip s) = Py.lstrip (Py.upper s).
Proof.
  induction s as [|c s IH]; [reflexivity|].
  cbn [Py.lstrip Py.upper]. rewrite upper_char_space.
  destruct (Py.is_space c); [exact IH | reflexivity].
Qed.

Lemma upper_rstrip (s : string) :
  Py.upper (Py.rstrip_with Py.is_space s) = Py.rstrip_with Py.is_space (Py.upper s).
Proof.
  induction s as [|c s IH]; [reflexivity|].
  cbn [Py.rstrip_with Py.upper]. rewrite <- IH, upper_char_space.
  destruct (Py.rstrip_with Py.is_space s); [|reflexivity].
  cbn [Py.upper]. destruct (Py.is_space c); reflexivity.
Qed.

Lemma upper_strip (s : string) : Py.upper (Py.strip s) = Py.strip (Py.upper s).
Proof. unfold Py.strip. now rewrite upper_rstrip, upper_lstrip. Qed.

Lemma lstrip_id (x : ascii) (p s : string) :
  Py.is_space x = false -> String.prefix (String x p) s = true -> Py.lstrip s = s.
Proof.
  intros Hx H. destruct s as [|c s]; [reflexivity|].
  rewrite prefix_cons in H. apply andb_true_iff in H as [Hc _].
  apply Ascii.eqb_eq in Hc. subst c. cbn [Py.lstrip]. now rewrite Hx.
Qed.

Lemma lstrip_id_upper (x : ascii) (p s : string) :
  Py.is_space x = false -> String.prefix (String x p) (Py.upper s) = true ->
  Py.lstrip s = s.
Proof.
  intros Hx H. destruct s as [|c s]; [reflexivity|].
  cbn [Py.upper] in H. rewrite prefix_cons in H. apply andb_true_iff in H as [Hc _].
  apply Ascii.eqb_eq in Hc. cbn [Py.lstrip].
  now rewrite <- upper_char_space, <- Hc, Hx.
Qed.

Lemma rstrip_with_idempotent (q : ascii -> bool) (s : string) :
  Py.rstrip_with q (Py.rstrip_with q s) = Py.rstrip_with q s.
Proof.
  induction s as [|c s IH]; [reflexivity|].
  cbn [Py.rstrip_with].
  destruct (Py.rstrip_with q s) as [|r0 r] eqn:E.
  - destruct (q c) eqn:Hc; [reflexivity|].
    cbn [Py.rstrip_with]. now rewrite Hc.
  - remember (String r0 r) as u eqn:Eu.
    cbn [Py.rstrip_with]. rewrite IH. now subst u.
Qed.

Lemma rstrip_with_app_last (q : ascii -> bool) (a : string) (c : ascii) :
  q c = false ->
  Py.rstrip_with q (a ++ String c EmptyString) = a ++ String c EmptyString.
Proof.
  intros Hc. induction a as [|x a IH].
  - cbn. now rewrite Hc.
  - cbn [append Py.rstrip_with]. rewrite IH.
    destruct (a ++ String c EmptyString) eqn:E; [|reflexivity].
    destruct a; discriminate E.
Qed.

Lemma take_app_length (a b : string) : Py.take (String.length a) (a ++ b) = a.
Proof.
  induction a as [|x a IH]; [destruct b; reflexivity|].
  cbn [String.length append Py.take]. now rewrite IH.
Qed.

Lemma length_app_one (a : string) (c : ascii) :
  String.length (a ++ String c EmptyString) = S (String.length a).
Proof. induction a as [|x a IH]; [reflexivity|]. cbn [append String.length]. now rewrite IH. Qed.

Lemma but_last_app (a : string) (c : ascii) :
  but_last (a ++ String c EmptyString) = a.
Proof.
  unfold but_last. rewrite length_app_one, Nat.sub_succ, Nat.sub_0_r.
  apply take_app_length.
Qed.

Lemma literal_ci_upper (lit s m r : string) :
  Re.literal true lit s = Some (m, r) -> s = m ++ r /\ Py.upper m = Py.upper lit.
Proof.
  revert s m; induction lit as [|l lit IH]; intros s m H; cbn [Re.literal] in H.
  - injection H as <- <-. now split.
  - destruct s as [|c s]; [discriminate H|].
    destruct (Ascii.eqb (Py.upper_char l) (Py.upper_char c)) eqn:E; [|discriminate H].
    destruct (Re.literal true lit s) as [[m' r']|] eqn:El; [|discriminate H].
    injection H as <- <-. apply IH in El as [-> Hu]. apply Ascii.eqb_eq in E.
    cbn [append Py.upper]. now rewrite Hu, E.
Qed.

Lemma span_spec (p : ascii -> bool) (s a b : string) :
  Re.span p s = (a, b) -> s = a ++ b /\ Py.all_chars p a = true.
Proof.
  revert a b; induction s as [|c s IH]; intros a b H; cbn [Re.span] in H.
  - injection H as <- <-. now split.
  - destruct (p c) eqn:Hc.
    + destruct (Re.span p s) as [a' b'] eqn:E. injection H as <- <-.
      destruct (IH _ _ eq_refl) as [-> Ha]. cbn. now rewrite Hc, Ha.
    + injection H as <- <-. now split.
Qed.

Lemma search_some {A : Type} (m : string -> option A) (s : string) (g : A) :
  Re.search m s = Some g -> exists a b, s = a ++ b /\ m b = Some g.
Proof.
  induction s as [|c s IH]; cbn [Re.search]; intros H.
  - destruct (m EmptyString) eqn:E; [|discriminate H].
    exists EmptyString, EmptyString. split; [reflexivity | congruence].
  - destruct (m (String c s)) eqn:E.
    + exists EmptyString, (String c s). split; [reflexivity | congruence].
    + destruct (IH H) as [a [b [-> Hb]]]. exists (String c a), b. now split.
Qed.

(** What the pattern of the second tier matches. *)
Lemma select_statement_shape (s g : string) :
  Re.select_statement s = Some g ->
  exists kw body,
    Py.upper kw = "SELECT"
    /\ Py.all_chars Re.not_semicolon body = true
    /\ (g = kw ++ body \/ g = (kw ++ body) ++ ";").
Proof.
  unfold Re.select_statement. intros H.
  destruct (Re.literal true "SELECT" s) as [[kw r]|] eqn:El; [|discriminate H].
  apply literal_ci_upper in El as [_ Hkw].
  destruct (Re.span Re.not_semicolon r) as [body rest] eqn:Es.
  apply span_spec in Es as [_ Hbody].
  exists kw, body. split; [exact Hkw|]. split; [exact Hbody|].
  destruct body as [|b0 body]; [discriminate H|].
  destruct rest as [|c rest].
  - injection H as <-. now left.
  - destruct (Ascii.eqb_spec c ";") as [->|Hne].
    + injection H as <-. right. now rewrite app_assoc_string.
    + left. revert H Hne. clear.
      destruct c as [[] [] [] [] [] [] [] []]; intros H Hne;
        try (injection H as <-; reflexivity).
      exfalso. now apply Hne.
Qed.

(** The matched text, once stripped. *)
Lemma stripped_statement_facts (g kw body : string) :
  Py.upper kw = "SELECT" ->
  Py.all_chars Re.not_semicolon body = true ->
  g = kw ++ body \/ g = (kw ++ body) ++ ";" ->
  Py.strip (Py.strip g) = Py.strip g
  /\ Py.startswith "SELECT" (Py.upper (Py.strip g)) = true
  /\ Py.all_chars Re.not_semicolon (but_last (Py.strip g)) = true
  /\ forall limit, exists out, validate (Py.strip g) limit = inr out.
Proof.
  intros Hkw Hbody Hshape.
  assert (Hcore : Py.all_chars Re.not_semicolon (kw ++ body) = true).
  { rewrite all_chars_app, Hbody, andb_true_r.
    rewrite <- (all_chars_upper _ kw upper_char_semicolon), Hkw. reflexivity. }
  assert (Hpre : String.prefix "SELECT" (Py.upper g) = true).
  { destruct Hshape as [-> | ->]; rewrite !upper_app, Hkw;
      rewrite ?app_assoc_string; now apply prefix_app_l. }
  assert (Hstrip : Py.upper (Py.strip g) = Py.rstrip_with Py.is_space (Py.upper g)).
  { rewrite upper_strip. unfold Py.strip.
    now rewrite (lstrip_id "S" "ELECT" _ eq_refl Hpre). }
  assert (Hsel : Py.startswith "SELECT" (Py.upper (Py.strip g)) = true).
  { unfold Py.startswith. rewrite Hstrip.
    now rewrite (prefix_rstrip Py.is_space "SELECT" _ eq_refl). }
  assert (Hl : Py.lstrip g = g).
  { exact (lstrip_id_upper "S" "ELECT" g eq_refl Hpre). }
  assert (Hid : Py.strip (Py.strip g) = Py.strip g).
  { unfold Py.strip. rewrite Hl.
    assert (Hl2 : Py.lstrip (Py.rstrip_with Py.is_space g) = Py.rstrip_with Py.is_space g).
    { apply (lstrip_id_upper "S" "ELECT" _ eq_refl).
      now rewrite upper_rstrip, (prefix_rstrip Py.is_space "SELECT" _ eq_refl). }
    rewrite Hl2. apply rstrip_with_idempotent. }
  split; [exact Hid|]. split; [exact Hsel|]. split.
  - unfold Py.strip. rewrite Hl. destruct Hshape as [-> | ->].
    + destruct (rstrip_with_app Py.is_space (kw ++ body)) as [t [Hs _]].
      apply all_chars_take. rewrite Hs, all_chars_app in Hcore.
      now apply andb_true_iff in Hcore as [Hk _].
    + rewrite (rstrip_with_app_last Py.is_space _ ";" eq_refl), but_last_app.
      exact Hcore.
  - intros limit. unfold validate.
    assert (Hguard : Py.startswith "SELECT" (Py.strip (Py.upper (Py.strip g))) = true).
    { rewrite <- upper_strip, Hid. exact Hsel. }
    rewrite Hguard. cbn [negb].
    destruct (negb (Py.contains "LIMIT" (Py.strip (Py.upper (Py.strip g))))); eauto.
Qed.

(** What the second tier returns: the stripped match of its pattern. *)
Lemma regex_tier_match (response : string) (r : sql_result) :
  generate_sql_regex_tier response = Some r ->
  exists g kw body,
    r = {| sql := JStr (Py.strip g);
           sql_explanation := JStr "Query generated from natural language" |}
    /\ Py.upper kw = "SELECT"
    /\ Py.all_chars Re.not_semicolon body = true
    /\ (g = kw ++ body \/ g = (kw ++ body) ++ ";").
Proof.
  unfold generate_sql_regex_tier. intros H.
  destruct (Re.search Re.select_statement response) as [g|] eqn:Eg; [|discriminate H].
  injection H as <-.
  apply search_some in Eg as [a [b [_ Hg]]].
  apply select_statement_shape in Hg as [kw [body Hshape]].
  exists g, kw, body. split; [reflexivity | exact Hshape].
Qed.

(** X4.  The statement that the second tier of [generate_sql] extracts has
    no white space at either end, starts with SELECT in some letter case,
    has no semicolon before its last character, so that it is one
    statement, and is accepted by the guard, for every limit. *)
Theorem regex_tier_single_select (response : string) (r : sql_result) :
  generate_sql_regex_tier response = Some r ->
  exists s,
    sql r = JStr s
    /\ Py.strip s = s
    /\ Py.startswith "SELECT" (Py.upper s) = true
    /\ Py.all_chars Re.not_semicolon (but_last s) = true
    /\ forall limit, exists out, validate s limit = inr out.
Proof.
  intros H.
  destruct (regex_tier_match response r H) as [g [kw [body [-> [Hkw [Hbody Hshape]]]]]].
  exists (Py.strip g). split; [reflexivity|].
  exact (stripped_statement_facts g kw body Hkw Hbody Hshape).
Qed.

(** A statement with no semicolon, after some prose. *)
Lemma regex_tier_single_select_witness :
  exists s,
    sql {| sql := JStr "select id from orders";
           sql_explanation := JStr "Query generated from natural language" |} = JStr s
    /\ Py.strip s = s
    /\ Py.startswith "SELECT" (Py.upper s) = true
    /\ Py.all_chars Re.not_semicolon (but_last s) = true
    /\ forall limit, exists out, validate s limit = inr out.
Proof.
  exact (regex_tier_single_select "Try this: select id from orders  " _ eq_refl).
Defined.



(** ** The decoders of explanations and summaries *)

Lemma upto_last_none (c : ascii) (s : string) :
  Py.contains (String c EmptyString) s = false -> Re.upto_last c s = None.
Proof.
  induction s as [|a s IH]; intros H; [reflexivity|].
  cbn [Py.contains] in H. apply orb_false_iff in H as [Hp Hs].
  rewrite prefix_cons, prefix_nil, andb_true_r in Hp.
  cbn [Re.upto_last]. rewrite (IH Hs).
  rewrite Ascii.eqb_sym. now rewrite Hp.
Qed.

Lemma contains_tail (p : string) (c : ascii) (s : string) :
  Py.contains p (String c s) = false -> Py.contains p s = false.
Proof. cbn [Py.contains]. intros H. now apply orb_false_iff in H as [_ H]. Qed.

Lemma search_greedy_object_none (s : string) :
  Py.contains "}" s = false -> Re.search Re.greedy_object s = None.
Proof.
  induction s as [|c s IH]; intros H; [reflexivity|].
  cbn [Re.search]. pose proof (contains_tail _ _ _ H) as Hs.
  assert (Hg : Re.greedy_object (String c s) = None).
  { unfold Re.greedy_object. rewrite (upto_last_none "}" s Hs).
    destruct c as [[] [] [] [] [] [] [] []]; reflexivity. }
  rewrite Hg. exact (IH Hs).
Qed.


(** X7.  A text with no closing brace is passed through: [explain_query]
    returns it as the explanation, with no components, no tables, the
    complexity moderate and neither tips nor issues, and [summarize_data]
    returns it as the summary, with no insights. *)
Theorem prose_answer_passed_through (response : string) (include_tips : bool) :
  Py.contains "}" response = false ->
  explain_query response include_tips =
    Returned {| explanation := JStr response;
                components := JObj [];
                tables := JArr [];
                complexity := JStr "moderate";
                optimization_tips := JNull;
                potential_issues := JNull |}
  /\ summarize_data response =
       Returned {| summary := JStr response; insights := JArr [] |}.
Proof.
  intros H. apply search_greedy_object_none in H.
  unfold explain_query, explain_query_json_tier, summarize_data, summarize_data_json_tier.
  rewrite H. now split.
Qed.

(** An answer in prose. *)
Lemma prose_answer_passed_through_witness :
  summarize_data "The table holds fifteen customers." =
    Returned {| summary := JStr "The table holds fifteen customers.";
                insights := JArr [] |}.
Proof.
  exact (proj2 (prose_answer_passed_through "The table holds fifteen customers."
                  true eq_refl)).
Defined.

(** ** The explain endpoint *)

(** X8.  When the query starts with one of the eight keywords and the text
    of the model has no closing brace, the explain endpoint answers with
    the text as the explanation and with the tables that the lexical
    extractor finds in the query; when the query starts with none of the
    keywords it answers INVALID_SQL, status 400, whatever the model says. *)
Theorem explain_endpoint_fallbacks
    (sql_query : string) (include_optimization_tips : bool) (response : string) :
  (existsb (fun kw => Py.startswith kw (Py.strip (Py.upper sql_query)))
           Routers.sql_keywords = true ->
   Py.contains "}" response = false ->
   Routers.explain_query sql_query include_optimization_tips response =
     inr {| Routers.original_query := sql_query;
            Routers.response_explanation := JStr response;
            Routers.query_components := JObj [];
            Routers.tables_involved := JArr (map JStr (extract_tables_from_sql sql_query));
            Routers.estimated_complexity := JStr "moderate";
            Routers.response_optimization_tips := JNull;
            Routers.response_potential_issues := JNull |})
  /\ (existsb (fun kw => Py.startswith kw (Py.strip (Py.upper sql_query)))
              Routers.sql_keywords = false ->
      Routers.explain_query sql_query include_optimization_tips response =
        inl (HttpError 400 INVALID_SQL [])).
Proof.
  split.
  - intros Hkw Hprose. unfold Routers.explain_query. rewrite Hkw. cbn [negb].
    apply search_greedy_object_none in Hprose.
    unfold explain_query, explain_query_json_tier. rewrite Hprose.
    cbn. destruct include_optimization_tips; reflexivity.
  - intros Hkw. unfold Routers.explain_query. now rewrite Hkw.
Qed.

(** A join explained in prose: the tables come from the query. *)
Lemma explain_endpoint_fallbacks_witness :
  exists r,
    Routers.explain_query "select * from users u join orders o on u.id = o.uid" true
      "It lists every user with the orders of that user." = inr r
    /\ Routers.tables_involved r = JArr [JStr "users"; JStr "orders"].
Proof.
  eexists. split.
  - apply (proj1 (explain_endpoint_fallbacks
                    "select * from users u join orders o on u.id = o.uid" true
                    "It lists every user with the orders of that user."));
      vm_compute; reflexivity.
  - vm_compute. reflexivity.
Defined.

(** ** What the table-name extractor returns *)

Lemma in_set_add (t x : string) (s : list string) :
  In t (set_add x s) -> t = x \/ In t s.
Proof.
  induction s as [|y s IH]; cbn [set_add]; intros H.
  - destruct H as [<-|[]]. now left.
  - destruct (String.eqb x y); [now right|].
    destruct H as [<-|H]; [right; now left|].
    destruct (IH H) as [->|Hin]; [now left | right; now right].
Qed.

Lemma find_from_spec (sub s : string) (i j : Z) :
  (0 <= i)%Z -> Py.find_from sub s i = j -> j <> (-1)%Z ->
  (i <= j)%Z /\ String.prefix sub (Py.drop (Z.to_nat (j - i)) s) = true.
Proof.
  revert i; induction s as [|c s IH]; intros i Hi Hf Hj; cbn [Py.find_from] in Hf.
  - destruct (String.prefix sub EmptyString) eqn:E; [|congruence].
    subst j. rewrite Z.sub_diag. split; [lia | exact E].
  - destruct (String.prefix sub (String c s)) eqn:E.
    + subst j. rewrite Z.sub_diag. split; [lia | exact E].
    + destruct (IH (i + 1)%Z ltac:(lia) Hf Hj) as [Hle Hp].
      split; [lia|].
      replace (Z.to_nat (j - i)) with (S (Z.to_nat (j - (i + 1)))) by lia.
      exact Hp.
Qed.

Lemma upper_take (n : nat) (s : string) : Py.upper (Py.take n s) = Py.take n (Py.upper s).
Proof.
  revert n; induction s as [|c s IH]; intros [|n]; try reflexivity.
  cbn [Py.take Py.upper]. now rewrite IH.
Qed.

Lemma upper_drop (n : nat) (s : string) : Py.upper (Py.drop n s) = Py.drop n (Py.upper s).
Proof.
  revert n; induction s as [|c s IH]; intros [|n]; try reflexivity.
  cbn [Py.drop Py.upper]. apply IH.
Qed.

Lemma prefix_take (p s : string) :
  String.prefix p s = true -> Py.take (String.length p) s = p.
Proof.
  revert s; induction p as [|x p IH]; intros s H.
  - destruct s; reflexivity.
  - destruct s as [|c s]; [discriminate H|].
    rewrite prefix_cons in H. apply andb_true_iff in H as [Hc Hp].
    apply Ascii.eqb_eq in Hc. subst c. cbn [String.length Py.take]. now rewrite IH.
Qed.

(** The text that the extractor reads back for a matched name is that
    name, in the letter case of the original. *)
Lemma slice_at_find (sql m : string) :
  Py.find m (Py.upper sql) <> (-1)%Z ->
  let idx := Py.find m (Py.upper sql) in
  Py.upper (Py.slice sql idx (idx + Z.of_nat (String.length m))) = m.
Proof.
  intros Hne idx. unfold Py.find in *.
  destruct (find_from_spec m (Py.upper sql) 0 idx ltac:(lia) eq_refl Hne) as [Hle Hp].
  unfold Py.slice. rewrite upper_take, upper_drop.
  replace (Z.to_nat (idx + Z.of_nat (String.length m) - idx)) with (String.length m) by lia.
  rewrite Z.sub_0_r in Hp. now apply prefix_take.
Qed.

Lemma extract_inner_loop (sql kw : string) (matches tables : list string) :
  In kw patterns ->
  (forall m, In m matches -> In m (Re.findall (Re.keyword_name kw) (Py.upper sql))) ->
  (forall t, In t tables -> extracted sql t) ->
  forall t,
    In t (fold_left
            (fun tables match_ =>
               let idx := Py.find match_ (Py.upper sql) in
               if negb (idx =? -1)%Z then
                 set_add (Py.slice sql idx (idx + Z.of_nat (String.length match_))) tables
               else tables)
            matches tables) ->
    extracted sql t.
Proof.
  intros Hkw. revert tables; induction matches as [|m matches IH];
    intros tables Hm Ht t Hin; cbn [fold_left] in Hin.
  - now apply Ht.
  - revert Hin. apply IH.
    + intros m' Hm'. apply Hm. now right.
    + cbv zeta. intros t' Hin'.
      destruct (Z.eqb_spec (Py.find m (Py.upper sql)) (-1)) as [E|E]; cbn [negb] in Hin'.
      * now apply Ht.
      * apply in_set_add in Hin' as [->|Hin']; [|now apply Ht].
        exists kw, m. split; [exact Hkw|]. split; [apply Hm; now left|].
        split; [exact E|]. split; [reflexivity|].
        now apply slice_at_find.
Qed.

Lemma extract_outer_loop (sql : string) (pats tables : list string) :
  (forall kw, In kw pats -> In kw patterns) ->
  (forall t, In t tables -> extracted sql t) ->
  forall t,
    In t (fold_left
            (fun tables pattern =>
               let matches := Re.findall (Re.keyword_name pattern) (Py.upper sql) in
               fold_left
                 (fun tables match_ =>
                    let idx := Py.find match_ (Py.upper sql) in
                    if negb (idx =? -1)%Z then
                      set_add (Py.slice sql idx (idx + Z.of_nat (String.length match_)))
                              tables
                    else tables)
                 matches tables)
            pats tables) ->
    extracted sql t.
Proof.
  revert tables; induction pats as [|kw pats IH]; intros tables Hp Ht t Hin;
    cbn [fold_left] in Hin.
  - now apply Ht.
  - revert Hin. apply IH.
    + intros kw' Hkw'. apply Hp. now right.
    + cbv zeta. apply (extract_inner_loop sql kw); [apply Hp; now left | auto | exact Ht].
Qed.



Lemma literal_prefix (lit s m r : string) :
  Re.literal false lit s = Some (m, r) -> String.prefix lit s = true.
Proof.
  revert s m r; induction lit as [|l lit IH]; intros s m r H; cbn [Re.literal] in H.
  - apply prefix_nil.
  - destruct s as [|c s]; [discriminate H|].
    destruct (Ascii.eqb l c) eqn:E; [|discriminate H].
    destruct (Re.literal false lit s) as [[m' r']|] eqn:El; [|discriminate H].
    rewrite prefix_cons, E. cbn. exact (IH _ _ _ El).
Qed.

Lemma findall_no_keyword (kw s : string) (skip : nat) :
  Py.contains kw s = false -> Re.findall_skip (Re.keyword_name kw) s skip = [].
Proof.
  revert skip; induction s as [|c s IH]; intros skip H; [reflexivity|].
  cbn [Re.findall_skip]. pose proof (contains_tail _ _ _ H) as Hs.
  destruct skip as [|k]; [|now apply IH].
  assert (Hm : Re.keyword_name kw (String c s) = None).
  { unfold Re.keyword_name.
    destruct (Re.literal false kw (String c s)) as [[k r]|] eqn:El; [|reflexivity].
    apply literal_prefix in El. cbn [Py.contains] in H.
    apply orb_false_iff in H as [Hp _]. congruence. }
  rewrite Hm. now apply IH.
Qed.

(** X10.  A query in which none of FROM, JOIN, INTO and UPDATE occurs, in
    any letter case, has no tables for the extractor. *)
Theorem extract_tables_without_keyword (sql : string) :
  (forall kw, In kw ["FROM"; "JOIN"; "INTO"; "UPDATE"] ->
              Py.contains kw (Py.upper sql) = false) ->
  extract_tables_from_sql sql = [].
Proof.
  intros H. unfold extract_tables_from_sql, patterns, Re.findall. cbv zeta.
  cbn [fold_left].
  rewrite !findall_no_keyword by (apply H; cbn; tauto).
  reflexivity.
Qed.

(** A query of a constant. *)
Lemma extract_tables_without_keyword_witness :
  extract_tables_from_sql "select 1 + 1 as two" = [].
Proof.
  apply extract_tables_without_keyword.
  intros kw [<-|[<-|[<-|[<-|[]]]]]; reflexivity.
Defined.

(** ** The tables that the schema hides *)

Lemma like_percent (s : string) : like "%" s = true.
Proof.
  induction s as [|c s IH]; [reflexivity|].
  change (like "%" (String c s)) with (like EmptyString (String c s) || like "%" s).
  rewrite IH. apply orb_true_r.
Qed.

Lemma like_char (p : ascii) (pat : string) (c : ascii) (s : string) :
  Ascii.eqb p "%" = false ->
  like (String p pat) (String c s) =
  (Ascii.eqb p "_" || Ascii.eqb (Py.upper_char p) (Py.upper_char c)) && like pat s.
Proof. intros H. cbn [like]. now rewrite H. Qed.

Lemma like_char_nil (p : ascii) (pat : string) :
  Ascii.eqb p "%" = false -> like (String p pat) EmptyString = false.
Proof. intros H. cbn [like]. now rewrite H. Qed.

(** A pattern made of letters, an underscore and a percent sign. *)
Lemma like_prefix_pattern (lit s : string) :
  Py.all_chars (fun c => negb (Ascii.eqb c "%") && negb (Ascii.eqb c "_")) lit = true ->
  (like (lit ++ "_%") s = true <->
   (String.length lit < String.length s)%nat
   /\ Py.upper (Py.take (String.length lit) s) = Py.upper lit).
Proof.
  revert s; induction lit as [|p lit IH]; intros s Hlit.
  - destruct s as [|c s].
    + split; [discriminate | intros [H _]; inversion H].
    + cbn [append]. rewrite (like_char "_" "%" c s eq_refl), like_percent.
      split; [intros _ | reflexivity].
      split; [cbn; lia | reflexivity].
  - cbn [Py.all_chars] in Hlit. apply andb_true_iff in Hlit as [Hp Hlit].
    apply andb_true_iff in Hp as [Hp1 Hp2].
    apply negb_true_iff in Hp1. apply negb_true_iff in Hp2.
    cbn [append]. destruct s as [|c s].
    + rewrite (like_char_nil _ _ Hp1).
      split; [discriminate | intros [H _]; inversion H].
    + rewrite (like_char _ _ _ _ Hp1), Hp2. cbn [orb String.length Py.take Py.upper].
      rewrite andb_true_iff, (IH s Hlit), Ascii.eqb_eq.
      split.
      * intros [Hc [Hlen Hu]]. split; [lia|]. now rewrite Hu, Hc.
      * intros [Hlen Hu]. injection Hu as Hc Hu. repeat split; [now symmetry| lia | exact Hu].
Qed.

Lemma like_sqlite (n : string) :
  like "sqlite_%" n = true <->
  (6 < String.length n)%nat /\ Py.upper (Py.take 6 n) = "SQLITE".
Proof. exact (like_prefix_pattern "sqlite" n eq_refl). Qed.

Lemma in_table_names (db : database) (n : string) :
  In n (get_table_names db) <-> In n (map st_name db) /\ like "sqlite_%" n = false.
Proof.
  unfold get_table_names, select_table_names. rewrite filter_In, negb_true_iff. reflexivity.
Qed.

Lemma table_exists_stored (db : database) (n : string) :
  table_exists db n = true <-> In n (map st_name db).
Proof.
  unfold table_exists. rewrite existsb_exists, in_map_iff.
  split; intros [t [H1 H2]]; exists t.
  - apply String.eqb_eq in H2. now split.
  - split; [exact H2 | now apply String.eqb_eq].
Qed.

Lemma find_table_visible (db : database) (n : string) :
  In n (get_table_names db) ->
  find_table (get_schema db) n = Some (_get_table_info db n).
Proof.
  intros H. destruct (find_table (get_schema db) n) as [t|] eqn:E.
  - now destruct (find_table_fetched db n t E) as [-> _].
  - unfold find_table in E. apply find_none_eqb in E. rewrite schema_names in E.
    contradiction.
Qed.

Lemma find_table_hidden (db : database) (n : string) :
  ~ In n (get_table_names db) -> find_table (get_schema db) n = None.
Proof.
  intros H. unfold find_table. apply find_none_eqb. now rewrite schema_names.
Qed.

(** X11.  The schema and the list of table names leave out exactly the
    stored tables whose name has seven characters or more, the first six of
    which spell sqlite in some letter case: the underscore of the pattern
    stands for any character. *)
Theorem schema_hides_sqlite_names (db : database) (n : string) :
  (In n (get_table_names db) <->
   In n (map st_name db)
   /\ ~ ((6 < String.length n)%nat /\ Py.upper (Py.take 6 n) = "SQLITE"))
  /\ map name (get_schema db) = get_table_names db.
Proof.
  split; [|apply schema_names].
  rewrite in_table_names, <- like_sqlite.
  destruct (like "sqlite_%" n); split; intros [H1 H2]; split;
    try assumption; try discriminate; try congruence;
    try (exfalso; now apply H2).
Qed.



(** ** Counts and ratios of the statistics *)

Lemma length_filter_split {A : Type} (p : A -> bool) (l : list A) :
  (List.length (filter p l) + List.length (filter (fun x => negb (p x)) l)
   = List.length l)%nat.
Proof.
  induction l as [|x l IH]; [reflexivity|].
  cbn [filter]. destruct (p x); cbn [negb List.length]; lia.
Qed.

Lemma length_filter_le {A : Type} (p : A -> bool) (l : list A) :
  (List.length (filter p l) <= List.length l)%nat.
Proof. pose proof (length_filter_split p l). lia. Qed.

Lemma length_distinct_le (rows : list (list value)) :
  (List.length (distinct rows) <= List.length rows)%nat.
Proof.
  induction rows as [|r rows IH]; [apply le_n|].
  cbn [distinct List.length].
  pose proof (length_filter_le (fun r' => negb (row_eqb r r')) (distinct rows)). lia.
Qed.

Lemma select_column_length (db : database) (n c : string) :
  Z.of_nat (List.length (select_column db n c)) = select_count db n.
Proof.
  unfold select_column, select_count.
  destruct (find_stored db n); [now rewrite length_map | reflexivity].
Qed.

Lemma select_columns_length (db : database) (n : string) (cs : list string) :
  Z.of_nat (List.length (select_columns db n cs)) = select_count db n.
Proof.
  unfold select_columns, select_count.
  destruct (find_stored db n); [now rewrite length_map | reflexivity].
Qed.

Lemma null_distinct_range (db : database) (n c : string) :
  (0 <= select_count_null db n c)%Z
  /\ (0 <= select_count_distinct db n c)%Z
  /\ (select_count_null db n c + select_count_distinct db n c <= select_count db n)%Z.
Proof.
  unfold select_count_null, select_count_distinct. cbv zeta.
  rewrite <- (select_column_length db n c).
  set (cells := select_column db n c).
  pose proof (length_filter_split is_null cells) as Hs.
  pose proof (length_distinct_le
                (map (fun v => [v]) (filter (fun v => negb (is_null v)) cells))) as Hd.
  rewrite length_map in Hd. repeat split; lia.
Qed.

(** X13.  In every entry of the column statistics of a table, the count of
    nulls and the count of distinct values are not negative, and their sum
    is at most the row count that the schema gives for the table. *)
Theorem column_statistics_counts
    (db : database) (table_name : string) (t : table) (cs : col_stats) :
  find_table (get_schema db) table_name = Some t ->
  In cs (get_column_statistics db table_name) ->
  (0 <= cs_null_count cs)%Z
  /\ (0 <= cs_distinct_count cs)%Z
  /\ (cs_null_count cs + cs_distinct_count cs <= row_count t)%Z.
Proof.
  intros Hf Hin. unfold get_column_statistics in Hin. rewrite Hf in Hin.
  apply in_map_iff in Hin as [col [<- _]].
  destruct (find_table_fetched db table_name t Hf) as [-> _].
  unfold column_statistics. cbn [cs_null_count cs_distinct_count row_count _get_table_info].
  apply null_distinct_range.
Qed.

(** The names of the spec's example: one null and one distinct value among
    three rows. *)
Lemma column_statistics_counts_witness :
  exists cs,
    nth_error (get_column_statistics Examples.store "people") 1 = Some cs
    /\ cs_null_count cs = 1%Z
    /\ (cs_null_count cs + cs_distinct_count cs <= 3)%Z.
Proof.
  eexists. split; [vm_compute; reflexivity|]. split; [reflexivity|].
  refine (proj2 (proj2 (column_statistics_counts Examples.store "people"
                          (_get_table_info Examples.store "people") _ eq_refl _))).
  vm_compute. right. left. reflexivity.
Defined.

Lemma fold_left_add_sum {A : Type} (f : A -> Z) (l : list A) (a0 : Z) :
  fold_left (fun a x => (a + f x)%Z) l a0 = (a0 + sum_Z (map f l))%Z.
Proof.
  revert a0; induction l as [|x l IH]; intros a0; cbn [fold_left map sum_Z fold_right].
  - lia.
  - rewrite IH. unfold sum_Z. lia.
Qed.

Lemma sum_Z_bounds (k : Z) (l : list Z) :
  (forall x, In x l -> (0 <= x <= k)%Z) ->
  (0 <= sum_Z l <= k * Z.of_nat (List.length l))%Z.
Proof.
  induction l as [|x l IH]; intros H; cbn [sum_Z fold_right List.length].
  - lia.
  - pose proof (H x (or_introl eq_refl)).
    assert (Hl : forall y, In y l -> (0 <= y <= k)%Z) by (intros y Hy; apply H; now right).
    specialize (IH Hl). unfold sum_Z in IH. rewrite Nat2Z.inj_succ. nia.
Qed.

(** What a full dict of metrics was computed from. *)
Lemma metrics_inversion (db : database) (n : string)
    (c : pynum) (nc d : Z) (u : pynum) :
  get_data_quality_metrics db n = Returned (Metrics c nc d u) ->
  exists first rest,
    find_table (get_schema db) n = Some (_get_table_info db n)
    /\ columns (_get_table_info db n) = first :: rest
    /\ nc = sum_Z (map (fun col => select_count_null db n (col_name col))
                       (columns (_get_table_info db n)))
    /\ c = round
             (let total_cells :=
                (select_count db n
                 * Z.of_nat (List.length (columns (_get_table_info db n))))%Z in
              if (0 <? total_cells)%Z
              then PFloat (Qred (true_div (total_cells - nc) total_cells * 100)%Q)
              else PInt 100) 2
    /\ d = select_count_duplicate_groups db n
             (map col_name (columns (_get_table_info db n)))
    /\ u = round
             (if (0 <? select_count db n)%Z
              then PFloat (true_div (select_count_distinct db n (col_name first))
                                    (select_count db n))
              else PInt 1) 4.
Proof.
  intros H. unfold get_data_quality_metrics in H.
  destruct (find_table (get_schema db) n) as [t|] eqn:Hf; [|discriminate H].
  destruct (find_table_fetched db n t Hf) as [-> _].
  cbv zeta in H. rewrite fold_left_add_sum, Z.add_0_l in H.
  change (row_count (_get_table_info db n)) with (select_count db n) in H.
  destruct (columns (_get_table_info db n)) as [|first rest] eqn:Hc; [discriminate H|].
  injection H as Hc' Hnc Hd Hu. exists first, rest.
  split; [reflexivity|]. split; [reflexivity|].
  split; [now symmetry|]. cbv zeta. rewrite <- Hnc.
  split; [now symmetry|]. split; now symmetry.
Qed.

(** X14.  The null count of the quality metrics of a table is the sum of
    the null counts of its column statistics, and lies between 0 and the
    number of cells: rows times columns. *)
Theorem quality_null_count_sum (db : database) (table_name : string)
    (completeness : pynum) (null_count duplicate_count : Z) (unique_ratio : pynum) :
  get_data_quality_metrics db table_name =
    Returned (Metrics completeness null_count duplicate_count unique_ratio) ->
  null_count = sum_Z (map cs_null_count (get_column_statistics db table_name))
  /\ (0 <= null_count
      <= select_count db table_name
         * Z.of_nat (List.length (get_column_statistics db table_name)))%Z.
Proof.
  intros H. apply metrics_inversion in H as [first [rest [Hf [_ [Hnc _]]]]].
  unfold get_column_statistics. rewrite Hf, map_map.
  split; [exact Hnc|]. rewrite Hnc, length_map.
  rewrite <- (length_map (fun col => select_count_null db table_name (col_name col))).
  apply sum_Z_bounds. intros x Hx. apply in_map_iff in Hx as [col [<- _]].
  pose proof (null_distinct_range db table_name (col_name col)). lia.
Qed.

(** The spec's example: one null among the six cells. *)
Lemma quality_null_count_sum_witness :
  1%Z = sum_Z (map cs_null_count (get_column_statistics Examples.store "people")).
Proof.
  exact (proj1 (quality_null_count_sum Examples.store "people"
                  (PFloat (Qmake 8333 100)) 1 0 (PFloat (Qmake 6667 10000)) eq_refl)).
Defined.

Lemma true_div_range (a b : Z) :
  (0 <= a <= b)%Z -> (0 < b)%Z -> (0 <= true_div a b <= 1)%Q.
Proof.
  intros Ha Hb. unfold true_div.
  split; rewrite Qred_correct; unfold Qle; cbn [Qnum Qden]; rewrite Z2Pos.id; lia.
Qed.

Lemma round_half_even_range (q : Q) (ndigits : nat) (k : Z) :
  (0 <= k)%Z -> (0 <= q)%Q -> (q <= inject_Z k)%Q ->
  (0 <= round_half_even q ndigits <= inject_Z k)%Q.
Proof.
  intros Hk H0 H1. unfold round_half_even. cbv zeta.
  destruct q as [a b]. unfold Qle in H0, H1. cbn [Qnum Qden inject_Z] in *.
  assert (Hs : (0 < 10 ^ Z.of_nat ndigits)%Z) by (apply Z.pow_pos_nonneg; lia).
  set (scale := (10 ^ Z.of_nat ndigits)%Z) in *.
  pose proof (Z.div_mod (a * scale) (Zpos b) ltac:(lia)) as Hdm.
  pose proof (Z.mod_pos_bound (a * scale) (Zpos b) ltac:(lia)) as Hr.
  set (fl := (a * scale / Zpos b)%Z) in *.
  set (r := ((a * scale) mod Zpos b)%Z) in *.
  assert (Hfl0 : (0 <= fl)%Z) by nia.
  assert (Hflk : (fl <= k * scale)%Z) by nia.
  assert (Hup : (0 < r -> fl + 1 <= k * scale)%Z) by nia.
  split; rewrite Qred_correct; unfold Qle; cbn [Qnum Qden inject_Z];
    rewrite ?Z2Pos.id by lia;
    destruct (2 * r <? Zpos b)%Z eqn:E1; try lia;
    apply Z.ltb_ge in E1;
    destruct (Zpos b <? 2 * r)%Z; try (destruct (Z.even fl)); lia.
Qed.

(** X15.  The completeness of the quality metrics lies between 0 and 100
    and the unique ratio between 0 and 1. *)
Theorem quality_ratios_in_range (db : database) (table_name : string)
    (completeness : pynum) (null_count duplicate_count : Z) (unique_ratio : pynum) :
  get_data_quality_metrics db table_name =
    Returned (Metrics completeness null_count duplicate_count unique_ratio) ->
  (0 <= pynum_value completeness <= 100)%Q
  /\ (0 <= pynum_value unique_ratio <= 1)%Q.
Proof.
  intros H. pose proof (metrics_inversion _ _ _ _ _ _ H)
    as [first [rest [Hf [Hcols [Hnc [Hc [_ Hu]]]]]]].
  split.
  - assert (Hrange : (0 <= null_count
                      <= select_count db table_name
                         * Z.of_nat (List.length (columns (_get_table_info db table_name))))%Z).
    { rewrite Hnc.
      rewrite <- (length_map (fun col => select_count_null db table_name (col_name col))).
      apply sum_Z_bounds. intros x Hx. apply in_map_iff in Hx as [col [<- _]].
      pose proof (null_distinct_range db table_name (col_name col)). lia. }
    rewrite Hc. cbv zeta.
    set (total := (select_count db table_name
                   * Z.of_nat (List.length (columns (_get_table_info db table_name))))%Z) in *.
    destruct (0 <? total)%Z eqn:Ht.
    + apply Z.ltb_lt in Ht. cbn [round pynum_value].
      apply (round_half_even_range _ 2 100 ltac:(lia)).
      * rewrite Qred_correct.
        destruct (true_div_range (total - null_count) total ltac:(lia) Ht) as [H0 H1].
        destruct (true_div (total - null_count) total) as [a b].
        unfold Qle, Qmult in *. cbn [Qnum Qden] in *. lia.
      * rewrite Qred_correct.
        destruct (true_div_range (total - null_count) total ltac:(lia) Ht) as [H0 H1].
        destruct (true_div (total - null_count) total) as [a b].
        unfold Qle, Qmult in *. cbn [Qnum Qden inject_Z] in *. lia.
    + cbn. unfold Qle. cbn. lia.
  - rewrite Hu.
    destruct (0 <? select_count db table_name)%Z eqn:Ht.
    + apply Z.ltb_lt in Ht. cbn [round pynum_value].
      pose proof (null_distinct_range db table_name (col_name first)) as Hd.
      destruct (true_div_range (select_count_distinct db table_name (col_name first))
                               (select_count db table_name) ltac:(lia) Ht) as [H0 H1].
      apply (round_half_even_range _ 4 1 ltac:(lia)); assumption.
    + cbn. unfold Qle. cbn. lia.
Qed.

(** The spec's example: 83.33 and 0.6667. *)
Lemma quality_ratios_in_range_witness :
  (0 <= Qmake 8333 100 <= 100)%Q /\ (0 <= Qmake 6667 10000 <= 1)%Q.
Proof.
  exact (quality_ratios_in_range Examples.store "people"
           (PFloat (Qmake 8333 100)) 1 0 (PFloat (Qmake 6667 10000)) eq_refl).
Defined.

Lemma filter_filter_absorb {A : Type} (p q : A -> bool) (l : list A) :
  (forall x, p x = true -> q x = true) -> filter p (filter q l) = filter p l.
Proof.
  intros H. induction l as [|x l IH]; [reflexivity|].
  cbn [filter]. destruct (p x) eqn:Ep.
  - rewrite (H x Ep). cbn [filter]. now rewrite Ep, IH.
  - destruct (q x); [cbn [filter]; rewrite Ep|]; exact IH.
Qed.

Lemma copies_remove (k k' : list value) (rows : list (list value)) :
  k' <> k -> copies k' (filter (fun r => negb (row_eqb k r)) rows) = copies k' rows.
Proof.
  intros Hne. unfold copies. f_equal. apply filter_filter_absorb.
  intros x Hx. apply row_eqb_eq in Hx. subst x. apply negb_true_iff.
  destruct (row_eqb k k') eqn:E; [|reflexivity].
  apply row_eqb_eq in E. congruence.
Qed.

Lemma twice_duplicated (ks : list (list value)) :
  forall rows,
    NoDup ks -> (forall k, In k ks -> (2 <= copies k rows)%nat) ->
    (2 * List.length ks <= List.length rows)%nat.
Proof.
  induction ks as [|k ks IH]; intros rows Hnd Hc; [cbn; lia|].
  inversion Hnd as [|k0 ks0 Hnotin Hnd']; subst.
  assert (Hc' : forall k', In k' ks ->
                     (2 <= copies k' (filter (fun r => negb (row_eqb k r)) rows))%nat).
  { intros k' Hk'. rewrite copies_remove; [apply Hc; now right|].
    intros ->. contradiction. }
  specialize (IH _ Hnd' Hc').
  pose proof (length_filter_split (row_eqb k) rows) as Hs.
  pose proof (Hc k (or_introl eq_refl)) as Hk. unfold copies in Hk.
  cbn [List.length]. lia.
Qed.

Lemma nodup_distinct (rows : list (list value)) : NoDup (distinct rows).
Proof.
  induction rows as [|r rows IH]; cbn [distinct]; constructor.
  - rewrite filter_In. intros [_ H]. now rewrite row_eqb_refl in H.
  - now apply NoDup_filter.
Qed.



Lemma filter_all {A : Type} (p : A -> bool) (l : list A) :
  (forall x, In x l -> p x = true) -> filter p l = l.
Proof.
  induction l as [|x l IH]; intros H; [reflexivity|].
  cbn [filter]. rewrite (H x (or_introl eq_refl)), IH; [reflexivity|].
  intros y Hy. apply H. now right.
Qed.

Lemma distinct_nodup (rows : list (list value)) : NoDup rows -> distinct rows = rows.
Proof.
  induction rows as [|r rows IH]; intros H; [reflexivity|].
  inversion H as [|r0 rows0 Hnotin Hnd]; subst.
  cbn [distinct]. rewrite (IH Hnd). f_equal. apply filter_all.
  intros x Hx. apply negb_true_iff. destruct (row_eqb r x) eqn:E; [|reflexivity].
  apply row_eqb_eq in E. congruence.
Qed.

Lemma nodup_map_factor {A B C : Type} (f : A -> B) (h : B -> C) (l : list A) :
  NoDup (map (fun x => h (f x)) l) -> NoDup (map f l).
Proof.
  induction l as [|x l IH]; intros H; cbn [map] in *; [constructor|].
  inversion H as [|y ys Hnotin Hnd]; subst. constructor; [|now apply IH].
  intros Hin. apply Hnotin. apply in_map_iff in Hin as [z [Hz Hin]].
  apply in_map_iff. exists z. split; [now rewrite Hz | exact Hin].
Qed.

Lemma nodup_singletons (cells : list value) :
  NoDup cells -> NoDup (map (fun v => [v]) cells).
Proof.
  induction cells as [|v cells IH]; intros H; cbn [map]; [constructor|].
  inversion H as [|y ys Hnotin Hnd]; subst. constructor; [|now apply IH].
  intros Hin. apply Hnotin. apply in_map_iff in Hin as [z [Hz Hin]].
  now injection Hz as ->.
Qed.

Lemma true_div_self (k : Z) : (0 < k)%Z -> true_div k k = Qmake 1 1.
Proof.
  intros Hk. unfold true_div.
  change (Qmake 1 1) with (Qred (Qmake 1 1)). apply Qred_complete.
  unfold Qeq. cbn [Qnum Qden]. rewrite Z2Pos.id; lia.
Qed.


